(** * Englisg_filter.py: the quality classifier and the row reducer

    A shallow embedding of [src/Englisg_filter.py].

    - A Python [str] is a list of Unicode code points ([N]).
    - Python values that may raise are computed in the [result] monad.
    - What the program takes from the Unicode database, from numpy and from
      pandas ([str.isalpha], [str.lower], the truth value of an empty array,
      [pd.read_csv]) is not code of the repository: it is gathered in the
      record [runtime], over which every definition is parametric.  A
      concrete runtime for ASCII text, [ascii_rt], runs the examples. *)

From Stdlib Require Import Ascii String DecimalString.
From Stdlib Require Import List Bool Arith NArith ZArith QArith Lia.
From Stdlib Require Import Permutation Sorted SpecFloat.
Import ListNotations.

Local Open Scope nat_scope.
Local Open Scope list_scope.

(** ** Strings *)

Definition char := N.
Definition str := list char.

(** A string literal of the source, as code points. *)
Definition py (s : string) : str := map N_of_ascii (list_ascii_of_string s).

Definition char_eqb (a b : char) : bool := N.eqb a b.

Fixpoint str_eqb (a b : str) : bool :=
  match a, b with
  | [], [] => true
  | x :: a', y :: b' => char_eqb x y && str_eqb a' b'
  | _, _ => false
  end.

Definition SPACE : char := 32%N.
Definition UPPER_X : char := 88%N.

(** [str.isspace] on one character, which is also what [\s] matches in a
    [str] pattern and what [str.strip] and [str.split] take as separators:
    U+0009..U+000D, U+001C..U+0020, U+0085, U+00A0, U+1680, U+2000..U+200A,
    U+2028, U+2029, U+202F, U+205F, U+3000. *)
Definition isspace (c : char) : bool :=
  ((9 <=? c) && (c <=? 13) ||
   (28 <=? c) && (c <=? 32) ||
   (c =? 133) || (c =? 160) || (c =? 5760) ||
   (8192 <=? c) && (c <=? 8202) ||
   (c =? 8232) || (c =? 8233) || (c =? 8239) || (c =? 8287) ||
   (c =? 12288))%N.

(** [s.lstrip()], [s.rstrip()], [s.strip()] *)
Fixpoint lstrip (s : str) : str :=
  match s with
  | [] => []
  | c :: t => if isspace c then lstrip t else s
  end.

Definition rstrip (s : str) : str := rev (lstrip (rev s)).

Definition strip (s : str) : str := rstrip (lstrip s).

(** [re.sub(r'\s+', ' ', s)]: every maximal run of whitespace becomes one
    space.  [in_run] says that the previous character was whitespace, so the
    run's space has been emitted already. *)
Fixpoint sub_ws_from (in_run : bool) (s : str) : str :=
  match s with
  | [] => []
  | c :: t =>
      if isspace c
      then (if in_run then sub_ws_from true t else SPACE :: sub_ws_from true t)
      else c :: sub_ws_from false t
  end.

Definition re_sub_ws (s : str) : str := sub_ws_from false s.

(** [s.split()]: the maximal runs of non-whitespace characters.  [cur] is the
    word being read, reversed. *)
Fixpoint split_from (cur : str) (s : str) : list str :=
  match s with
  | [] => match cur with [] => [] | _ => [rev cur] end
  | c :: t =>
      if isspace c
      then match cur with
           | [] => split_from [] t
           | _ => rev cur :: split_from [] t
           end
      else split_from (c :: cur) t
  end.

Definition split (s : str) : list str := split_from [] s.

(** [re.search(r'X{5,}', s)] as a truth value: at some position the string
    goes on with at least five [X]. *)
Fixpoint starts_with_X (n : nat) (s : str) : bool :=
  match n with
  | O => true
  | S n' => match s with
            | [] => false
            | c :: t => char_eqb c UPPER_X && starts_with_X n' t
            end
  end.

Fixpoint re_search_X5 (s : str) : bool :=
  match s with
  | [] => false
  | _ :: t => starts_with_X 5 s || re_search_X5 t
  end.

(** [p in s] for strings *)
Fixpoint startswith (p s : str) : bool :=
  match p with
  | [] => true
  | a :: p' => match s with
               | [] => false
               | b :: s' => char_eqb a b && startswith p' s'
               end
  end.

Fixpoint str_in (p s : str) : bool :=
  startswith p s ||
  match s with
  | [] => false
  | _ :: t => str_in p t
  end.

(** ** Values and exceptions *)

Inductive exn : Type :=
| ValueError
| KeyError
| ZeroDivisionError
| OtherException (tag : N).

Inductive result (A : Type) : Type :=
| Ok (a : A)
| Raise (e : exn).

Arguments Ok {A} a.
Arguments Raise {A} e.

Definition bind {A B : Type} (r : result A) (k : A -> result B) : result B :=
  match r with
  | Ok a => k a
  | Raise e => Raise e
  end.

Notation "x <- r ;; k" := (bind r (fun x => k))
  (at level 61, r at next level, right associativity).

(** A scalar: what a cell of a DataFrame read by [pd.read_csv] holds, and
    what a caller may pass to the classifier.  A float other than NaN is
    carried by its [str()] text: float formatting is not modelled. *)
Inductive scalar : Type :=
| SNone
| SNaN
| SInt (z : Z)
| SBool (b : bool)
| SFloat (repr : str)
| SStr (s : str).

(** A Python value: a scalar or a list of scalars. *)
Inductive value : Type :=
| VScalar (x : scalar)
| VList (l : list scalar).

(** ** The runtime the program runs on *)

Inductive read_mode : Type :=
| ReadDefault        (* pd.read_csv(f) *)
| ReadLatin1         (* pd.read_csv(f, encoding='latin1') *)
| ReadLenient.       (* pd.read_csv(f, encoding='utf-8', engine='python',
                                     on_bad_lines='skip') *)

(** A DataFrame: its column labels and its rows as [df.iterrows()] yields
    them, each row the cells in column order.  [pd.read_csv] gives distinct
    labels; a row shorter than the header is filled with NaN. *)
Record DataFrame : Type := {
  columns : list str;
  rows : list (list scalar)
}.

Record runtime : Type := {
  (** [c.isalpha()] *)
  isalpha : char -> bool;
  (** [s.lower()] *)
  lower : str -> str;
  (** [bool(numpy.array([]))]: False with a warning in older numpy, a
      ValueError in newer ones *)
  empty_array_truth : result bool;
  (** [pd.read_csv] on the file system the program runs on *)
  read_csv : read_mode -> str -> result DataFrame
}.

(** ** pandas and numpy primitives *)

(** [libmissing.checknull] *)
Definition checknull (x : scalar) : bool :=
  match x with
  | SNone | SNaN => true
  | _ => false
  end.

(** What [pd.isna] returns: a bool for a scalar, an array of bools for a
    list. *)
Inductive isna_result : Type :=
| IsnaScalar (b : bool)
| IsnaArray (bs : list bool).

Definition pd_isna (v : value) : isna_result :=
  match v with
  | VScalar x => IsnaScalar (checknull x)
  | VList l => IsnaArray (map checknull l)
  end.

(** The truth value of what [pd.isna] returned, as [if], [or] and [not]
    take it: an array of two or more elements has none. *)
Definition truth (rt : runtime) (r : isna_result) : result bool :=
  match r with
  | IsnaScalar b => Ok b
  | IsnaArray [] => empty_array_truth rt
  | IsnaArray [b] => Ok b
  | IsnaArray (_ :: _ :: _) => Raise ValueError
  end.

(** ** is_quality_english *)

Definition common_english_words : list str :=
  map py
    ["the"; "and"; "for"; "you"; "are"; "your"; "will"; "have"; "from";
     "this"; "with"; "that"; "send"; "please"; "money"; "bank"; "account";
     "contact"; "code"; "number"; "phone"; "call"; "cash"; "credit"; "payment";
     "free"; "claim"; "prize"; "win"; "won"; "congratulations"; "urgent"]%string.

(** [re.sub(r'\s+', ' ', str(text)).strip()] *)
Definition clean (text : str) : str := strip (re_sub_ws text).

(** [sum(c.isalpha() for c in cleaned_text)] *)
Definition alpha_chars (rt : runtime) (s : str) : nat :=
  length (filter (isalpha rt) s).

(** [f" {word} " in f" {lower_text} "] *)
Definition has_word (lower_text word : str) : bool :=
  str_in ([SPACE] ++ word ++ [SPACE]) ([SPACE] ++ lower_text ++ [SPACE]).

(** [sum(1 for word in common_english_words if ...)] *)
Definition english_word_count (rt : runtime) (cleaned_text : str) : nat :=
  length (filter (has_word (lower rt cleaned_text)) common_english_words).

(** Doubles, as the IEEE 754 specification of the Standard Library has
    them: binary64 is precision 53 with infinities at exponent 1024. *)
Definition BINARY64_PREC : Z := 53.
Definition BINARY64_EMAX : Z := 1024.

(** [float(n)] for a length or a count *)
Definition float_of_nat (n : nat) : spec_float :=
  binary_normalize BINARY64_PREC BINARY64_EMAX (Z.of_nat n) 0 false.

(** [a / b] on two ints that fit a double's mantissa: the double nearest to
    the quotient. *)
Definition float_truediv (a b : nat) : spec_float :=
  SFdiv BINARY64_PREC BINARY64_EMAX (float_of_nat a) (float_of_nat b).

(** The number a finite double stands for. *)
Definition Q_of_finite (s : bool) (m : positive) (e : Z) : Q :=
  let v := match e with
           | Z0 => Zpos m # 1
           | Zpos k => Zpos (m * 2 ^ k) # 1
           | Zneg k => Zpos m # (2 ^ k)
           end in
  if s then Qopp v else v.

(** [x < r] for a double [x] and a threshold of value [r]: Python compares
    a float with a float, an int or a Fraction by value. *)
Definition float_ltb_Q (x : spec_float) (r : Q) : bool :=
  match x with
  | S754_nan => false
  | S754_infinity s => s
  | S754_zero _ => negb (Qle_bool r 0)
  | S754_finite s m e => negb (Qle_bool r (Q_of_finite s m e))
  end.

(** [alpha_chars / len(cleaned_text) < min_alpha_ratio]: the quotient is a
    double, [min_alpha_ratio] is given by its value. *)
Definition ratio_below (alpha len : nat) (min_alpha_ratio : Q) : bool :=
  float_ltb_Q (float_truediv alpha len) min_alpha_ratio.

(** The body of [is_quality_english] from the cleaning on, for a [str]. *)
Definition quality_checks (rt : runtime) (text : str)
    (min_words : Z) (min_alpha_ratio : Q) (min_length : Z) : bool :=
  let cleaned_text := clean text in
  if (Z.of_nat (length cleaned_text) <? min_length)%Z then false
  else if re_search_X5 cleaned_text then false
  else
    let words := split cleaned_text in
    if (Z.of_nat (length words) <? min_words)%Z then false
    else if (0 <? length cleaned_text) &&
            ratio_below (alpha_chars rt cleaned_text) (length cleaned_text)
                        min_alpha_ratio
    then false
    else if 50 <? length cleaned_text
    then 2 <=? english_word_count rt cleaned_text
    else 1 <=? english_word_count rt cleaned_text.

(** [is_quality_english(text, min_words, min_alpha_ratio, min_length)].  The
    guard is [pd.isna(text) or not isinstance(text, str) or
    text.strip() == '']: the truth value of [pd.isna(text)] is taken
    first. *)
Definition is_quality_english (rt : runtime) (text : value)
    (min_words : Z) (min_alpha_ratio : Q) (min_length : Z) : result bool :=
  na <- truth rt (pd_isna text) ;;
  if na then Ok false
  else
    match text with
    | VScalar (SStr s) =>
        match strip s with
        | [] => Ok false
        | _ :: _ =>
            Ok (quality_checks rt s min_words min_alpha_ratio min_length)
        end
    | _ => Ok false
    end.

(** The defaults of the signature. *)
Definition MIN_WORDS : Z := 4.
Definition MIN_ALPHA_RATIO : Q := 1 # 2.
Definition MIN_LENGTH : Z := 15.

(** ** extract_quality_english_text *)

(** [str(x)] for a scalar *)
Definition py_str (x : scalar) : str :=
  match x with
  | SNone => py "None"
  | SNaN => py "nan"
  | SInt z => py (NilZero.string_of_int (Z.to_int z))
  | SBool true => py "True"
  | SBool false => py "False"
  | SFloat repr => repr
  | SStr s => s
  end.

(** The three attempts of the loading [try]: each later one runs only when
    the one before raised.  Returns the attempts made, in order, and what
    the last of them gave. *)
Definition load_csv (rt : runtime) (input_file : str)
    : list read_mode * result DataFrame :=
  match read_csv rt ReadDefault input_file with
  | Ok df => ([ReadDefault], Ok df)
  | Raise _ =>
      match read_csv rt ReadLatin1 input_file with
      | Ok df => ([ReadDefault; ReadLatin1], Ok df)
      | Raise _ =>
          ([ReadDefault; ReadLatin1; ReadLenient],
           read_csv rt ReadLenient input_file)
      end
  end.

(** [col in df.columns] *)
Definition in_columns (col : str) (cols : list str) : bool :=
  existsb (str_eqb col) cols.

(** The columns to scan:
    [if text_columns is None or not all(col in df.columns for col in
    text_columns): text_columns = df.columns]. *)
Definition select_columns (df : DataFrame) (text_columns : option (list str))
    : list str :=
  match text_columns with
  | None => columns df
  | Some cols =>
      if negb (forallb (fun col => in_columns col (columns df)) cols)
      then columns df
      else cols
  end.

(** The position of a label in [df.columns]. *)
Fixpoint index_of (col : str) (cols : list str) : option nat :=
  match cols with
  | [] => None
  | c :: rest =>
      if str_eqb col c then Some 0
      else match index_of col rest with
           | Some i => Some (S i)
           | None => None
           end
  end.

(** [row[col]] *)
Definition row_get (df_columns : list str) (row : list scalar) (col : str)
    : result scalar :=
  match index_of col df_columns with
  | Some i => Ok (nth i row SNaN)
  | None => Raise KeyError
  end.

(** [str(row[col]) if not pd.isna(row[col]) else ""] *)
Definition cell_text_of (x : scalar) : str :=
  if negb (checknull x) then py_str x else [].

Definition sentinels : list str :=
  map py [""; "nan"; "None"; "0"; "NaN"]%string.

(** [cell_text.strip() in ["", "nan", "None", "0", "NaN"]] *)
Definition is_sentinel (cell_text : str) : bool :=
  existsb (str_eqb (strip cell_text)) sentinels.

(** The inner loop: [row_texts] for one row. *)
Fixpoint scan_columns (rt : runtime) (df_columns : list str)
    (row : list scalar) (text_columns : list str) : result (list str) :=
  match text_columns with
  | [] => Ok []
  | col :: rest =>
      x <- row_get df_columns row col ;;
      let cell_text := cell_text_of x in
      if is_sentinel cell_text
      then scan_columns rt df_columns row rest
      else
        pass <- is_quality_english rt (VScalar (SStr cell_text))
                  MIN_WORDS MIN_ALPHA_RATIO MIN_LENGTH ;;
        row_texts <- scan_columns rt df_columns row rest ;;
        Ok (if pass then cell_text :: row_texts else row_texts)
  end.

(** [sorted(row_texts, key=len, reverse=True)]: the stable sort by
    decreasing length (texts of one length keep their order). *)
Fixpoint insert_by_len (x : str) (sorted : list str) : list str :=
  match sorted with
  | [] => [x]
  | y :: rest =>
      if length x <? length y
      then y :: insert_by_len x rest
      else x :: sorted
  end.

Fixpoint sorted_by_len_desc (l : list str) : list str :=
  match l with
  | [] => []
  | x :: rest => insert_by_len x (sorted_by_len_desc rest)
  end.

(** [if row_texts: longest_text = sorted(...)[0]] *)
Definition longest_text (row_texts : list str) : option str :=
  match row_texts with
  | [] => None
  | _ :: _ => hd_error (sorted_by_len_desc row_texts)
  end.

(** The outer loop: [all_texts]. *)
Fixpoint scan_rows (rt : runtime) (df_columns : list str)
    (text_columns : list str) (df_rows : list (list scalar))
    : result (list str) :=
  match df_rows with
  | [] => Ok []
  | row :: rest =>
      row_texts <- scan_columns rt df_columns row text_columns ;;
      all_texts <- scan_rows rt df_columns text_columns rest ;;
      Ok (match longest_text row_texts with
          | Some t => t :: all_texts
          | None => all_texts
          end)
  end.

(** [result_df.drop_duplicates(inplace=True)]: a text stays when it was not
    seen before. *)
Fixpoint drop_duplicates_from (seen : list str) (l : list str) : list str :=
  match l with
  | [] => []
  | x :: rest =>
      if existsb (str_eqb x) seen
      then drop_duplicates_from seen rest
      else x :: drop_duplicates_from (x :: seen) rest
  end.

Definition drop_duplicates (l : list str) : list str :=
  drop_duplicates_from [] l.

(** [a / b] on ints *)
Definition py_truediv (a b : nat) : result Q :=
  match b with
  | O => Raise ZeroDivisionError
  | S _ => Ok (Z.of_nat a # Pos.of_nat b)
  end.

(** What a call leaves behind: the file written by [to_csv], when it got
    that far (its path and its one column), and what the call returned or
    raised. *)
Record outcome : Type := {
  written : option (str * list str);
  returned : result (list str)
}.

(** The function from the loaded frame on.  The write of line 114 is taken
    to succeed: [written] is what [to_csv] is given, and an output path that
    cannot be written is not modelled. *)
Definition extract_from_frame (rt : runtime) (df : DataFrame)
    (output_file : str) (text_columns : option (list str)) : outcome :=
  let total_rows := length (rows df) in
  let text_columns := select_columns df text_columns in
  match scan_rows rt (columns df) text_columns (rows df) with
  | Raise e => {| written := None; returned := Raise e |}
  | Ok all_texts =>
      let result_df := drop_duplicates all_texts in
      {| written := Some (output_file, result_df);
         returned := (_ <- py_truediv (length result_df) total_rows ;;
                      Ok result_df) |}
  end.

Definition extract_quality_english_text (rt : runtime)
    (input_file output_file : str) (text_columns : option (list str))
    : outcome :=
  match snd (load_csv rt input_file) with
  | Raise e => {| written := None; returned := Raise e |}
  | Ok df => extract_from_frame rt df output_file text_columns
  end.

(** ** A runtime for ASCII text *)

Definition ascii_isalpha (c : char) : bool :=
  ((65 <=? c) && (c <=? 90) || (97 <=? c) && (c <=? 122))%N.

Definition ascii_lower (s : str) : str :=
  map (fun c => if ((65 <=? c) && (c <=? 90))%N then (c + 32)%N else c) s.

Definition ascii_rt (fs : read_mode -> str -> result DataFrame) : runtime :=
  {| isalpha := ascii_isalpha;
     lower := ascii_lower;
     empty_array_truth := Raise ValueError;
     read_csv := fs |}.

(** A file system with no readable file, and one where every path holds
    the same table. *)
Definition no_files : read_mode -> str -> result DataFrame :=
  fun _ _ => Raise (OtherException 2).

Definition one_file (df : DataFrame) : read_mode -> str -> result DataFrame :=
  fun _ _ => Ok df.

(** ** Vocabulary of the statements *)

(** Strings without whitespace, strings of whitespace only. *)
Definition no_space (xs : str) : Prop := Forall (fun c => isspace c = false) xs.

Definition all_space (w : str) : Prop := Forall (fun c => isspace c = true) w.

(** The run of [n] letters X. *)
Definition X_run (n : nat) : str := repeat UPPER_X n.

(** A runtime agrees with Python on ASCII text when its [isalpha] and
    [lower] are the ASCII ones there. *)
Definition is_ascii (s : str) : bool := forallb (fun c => (c <? 128)%N) s.

Definition ascii_compatible (rt : runtime) : Prop :=
  (forall c, (c < 128)%N -> isalpha rt c = ascii_isalpha c) /\
  (forall s, is_ascii s = true -> lower rt s = ascii_lower s).

Definition prize_text : str :=
  py "Please send your bank account number to claim your prize now, congratulations!".

(** [w] occurs in [text] bounded by spaces, the text being padded with a
    space at each end. *)
Definition space_bounded (w text : str) : Prop :=
  exists pre post,
    [SPACE] ++ text ++ [SPACE] = pre ++ ([SPACE] ++ w ++ [SPACE]) ++ post.

(** [matched] lists, each once, the words of the fixed list that occur
    bounded by spaces in the lower-cased cleaned text. *)
Definition matched_words (rt : runtime) (cleaned_text : str)
    (matched : list str) : Prop :=
  NoDup matched /\
  forall w, In w matched <->
            In w common_english_words /\
            space_bounded w (lower rt cleaned_text).

(** A cell text passes when the classifier, called as the reducer calls it,
    returns True. *)
Definition passes (rt : runtime) (cell_text : str) : Prop :=
  is_quality_english rt (VScalar (SStr cell_text))
    MIN_WORDS MIN_ALPHA_RATIO MIN_LENGTH = Ok true.

Definition passesb (rt : runtime) (cell_text : str) : bool :=
  match is_quality_english rt (VScalar (SStr cell_text))
          MIN_WORDS MIN_ALPHA_RATIO MIN_LENGTH with
  | Ok b => b
  | Raise _ => false
  end.

(** The cell of a row under a label ([NaN] where the row has none). *)
Definition cell_at (df_columns : list str) (row : list scalar) (col : str)
    : scalar :=
  match index_of col df_columns with
  | Some i => nth i row SNaN
  | None => SNaN
  end.

(** The coerced texts of a row's cells, for a list of labels and in the
    order of that list; those among them that pass. *)
Definition cell_texts (df_columns : list str) (row : list scalar)
    (cols : list str) : list str :=
  map (fun col => cell_text_of (cell_at df_columns row col)) cols.

Definition passing_texts (rt : runtime) (df_columns : list str)
    (row : list scalar) (cols : list str) : list str :=
  filter (passesb rt) (cell_texts df_columns row cols).

(** [t] is the longest text of [l], the first one of that length. *)
Definition first_longest (t : str) (l : list str) : Prop :=
  exists pre post,
    l = pre ++ t :: post /\
    Forall (fun u => length u < length t) pre /\
    Forall (fun u => length u <= length t) post.

(** What a row adds to the output: nothing when no text passes, the first
    longest passing text otherwise. *)
Definition row_record (passing : list str) (record : option str) : Prop :=
  match record with
  | None => passing = []
  | Some t => first_longest t passing
  end.

Definition record_list (record : option str) : list str :=
  match record with
  | Some t => [t]
  | None => []
  end.

(** The scanned labels in the order the source table has them. *)
Definition in_source_order (df : DataFrame) (cols : list str) : list str :=
  filter (fun c => in_columns c cols) (columns df).

(** The reducer's rule, with [order] the list of labels whose order breaks
    ties: the collected texts are, row after row, one record for each row
    that has a passing cell. *)
Definition one_record_per_row (rt : runtime) (df : DataFrame)
    (text_columns : option (list str)) (order : list str) : Prop :=
  exists records : list (option str),
    Forall2 (fun row record =>
               row_record (passing_texts rt (columns df) row order) record)
            (rows df) records /\
    scan_rows rt (columns df) (select_columns df text_columns) (rows df)
      = Ok (flat_map record_list records).

(** A frame whose scanned cell texts are ASCII once cleaned. *)
Definition ascii_frame (df : DataFrame) (cols : list str) : bool :=
  forallb (fun row =>
             forallb (fun t => is_ascii (clean t))
                     (cell_texts (columns df) row cols))
          (rows df).

(** [' '.join(words)] *)
Fixpoint join_space (words : list str) : str :=
  match words with
  | [] => []
  | w :: rest =>
      match rest with
      | [] => w
      | _ :: _ => w ++ SPACE :: join_space rest
      end
  end.

(** The words, each followed by a space. *)
Definition spaced (words : list str) : str :=
  flat_map (fun w => w ++ [SPACE]) words.

(** [c.lower()] on an ASCII character *)
Definition ascii_lower_char (c : char) : char :=
  if ((65 <=? c) && (c <=? 90))%N then (c + 32)%N else c.

(** A word: not empty, no whitespace in it. *)
Definition is_word (w : str) : Prop := no_space w /\ w <> [].

Definition is_wordb (w : str) : bool :=
  negb (existsb isspace w) && negb (str_eqb w []).

(** The table that holds an output column: one column [english_text], one
    row for each text. *)
Definition output_frame (texts : list str) : DataFrame :=
  {| columns := [py "english_text"];
     rows := map (fun t => [SStr t]) texts |}.

(** A table with more rows under the same header. *)
Definition append_rows (df : DataFrame) (more : list (list scalar)) : DataFrame :=
  {| columns := columns df; rows := rows df ++ more |}.

(** [x not in seen] *)
Definition unseen (seen : list str) (x : str) : bool :=
  negb (existsb (str_eqb x) seen).

(** Tables of the examples. *)
Definition text_single : str := py "please call the bank now".
Definition text_double : str := py "please call the  bank now".
Definition text_upper : str := py "please call the bank NOW".

Definition tie_table : DataFrame :=
  {| columns := [py "a"; py "b"];
     rows := [[SStr text_single; SStr text_upper]] |}.

Definition spaces_table : DataFrame :=
  {| columns := [py "id"; py "text"];
     rows := [[SInt 1; SStr text_single];
              [SInt 2; SStr text_double];
              [SInt 3; SStr text_single];
              [SInt 0; SNaN]] |}.

Definition header_only : DataFrame :=
  {| columns := [py "id"; py "text"]; rows := [] |}.

(** File systems of the examples: one where only the Latin-1 attempt and
    the lenient one can read the file. *)
Definition latin1_only (df : DataFrame) : read_mode -> str -> result DataFrame :=
  fun mode _ =>
    match mode with
    | ReadDefault => Raise (OtherException 1)
    | _ => Ok df
    end.

(** * Properties *)

(** ** Strings *)

Lemma str_eqb_eq (a b : str) : str_eqb a b = true <-> a = b.
Proof.
  revert b; induction a as [|x a IH]; intros [|y b]; simpl; split;
    try congruence; try reflexivity.
  - intros H. apply andb_true_iff in H as [Hxy Hab].
    apply N.eqb_eq in Hxy. apply IH in Hab. congruence.
  - intros H. injection H as -> ->. apply andb_true_iff. split.
    + apply N.eqb_refl.
    + now apply IH.
Qed.

Lemma str_eqb_refl (a : str) : str_eqb a a = true.
Proof. now apply str_eqb_eq. Qed.

Lemma existsb_str_eqb_In (x : str) (l : list str) :
  existsb (str_eqb x) l = true <-> In x l.
Proof.
  rewrite existsb_exists. split.
  - intros [y [Hin Heq]]. apply str_eqb_eq in Heq. now subst.
  - intros Hin. exists x. split; [assumption | apply str_eqb_refl].
Qed.

(** Stripping and collapsing never lengthen a string. *)

Lemma lstrip_length (s : str) : length (lstrip s) <= length s.
Proof.
  induction s as [|c t IH]; simpl; [lia|].
  destruct (isspace c); simpl; lia.
Qed.

Lemma rstrip_length (s : str) : length (rstrip s) <= length s.
Proof.
  unfold rstrip. rewrite length_rev.
  etransitivity; [apply lstrip_length|]. now rewrite length_rev.
Qed.

Lemma strip_length (s : str) : length (strip s) <= length s.
Proof.
  unfold strip. etransitivity; [apply rstrip_length | apply lstrip_length].
Qed.

Lemma sub_ws_from_length (b : bool) (s : str) :
  length (sub_ws_from b s) <= length s.
Proof.
  revert b; induction s as [|c t IH]; intros b; simpl; [lia|].
  destruct (isspace c); [destruct b|]; simpl;
    match goal with |- context [sub_ws_from ?b' t] => specialize (IH b') end;
    lia.
Qed.

Lemma clean_length (s : str) : length (clean s) <= length s.
Proof.
  unfold clean, re_sub_ws.
  etransitivity; [apply strip_length | apply sub_ws_from_length].
Qed.

(** A run of characters that are not whitespace survives the cleaning. *)

Lemma sub_ws_from_app (b : bool) (pre r : str) :
  exists pre' b', sub_ws_from b (pre ++ r) = pre' ++ sub_ws_from b' r.
Proof.
  revert b; induction pre as [|c pre IH]; intros b; simpl.
  - now exists [], b.
  - destruct (isspace c); [destruct b|].
    + apply IH.
    + destruct (IH true) as (p & b' & E). exists (SPACE :: p), b'.
      now rewrite E.
    + destruct (IH false) as (p & b' & E). exists (c :: p), b'.
      now rewrite E.
Qed.

Lemma sub_ws_from_no_space (b : bool) (xs r : str) :
  no_space xs -> xs <> [] ->
  sub_ws_from b (xs ++ r) = xs ++ sub_ws_from false r.
Proof.
  intros Hns. revert b. induction Hns as [|c xs Hc Hxs IH]; intros b Hne.
  - congruence.
  - simpl. rewrite Hc. f_equal. destruct xs as [|d xs'].
    + reflexivity.
    + apply IH. discriminate.
Qed.

Lemma lstrip_keeps_run (pre xs post : str) :
  no_space xs -> xs <> [] ->
  exists p, lstrip (pre ++ xs ++ post) = p ++ xs ++ post.
Proof.
  intros Hns Hne. induction pre as [|c pre IH]; simpl.
  - exists []. destruct Hns as [|d xs Hd Hxs]; [congruence|].
    simpl. now rewrite Hd.
  - destruct (isspace c).
    + exact IH.
    + now exists (c :: pre).
Qed.

Lemma no_space_rev (xs : str) : no_space xs -> no_space (rev xs).
Proof. unfold no_space. apply Forall_rev. Qed.

Lemma rstrip_keeps_run (pre xs post : str) :
  no_space xs -> xs <> [] ->
  exists q, rstrip (pre ++ xs ++ post) = pre ++ xs ++ q.
Proof.
  intros Hns Hne. unfold rstrip.
  rewrite !rev_app_distr, <- app_assoc.
  destruct (lstrip_keeps_run (rev post) (rev xs) (rev pre)) as (p & E).
  - now apply no_space_rev.
  - intros H. apply (f_equal (@rev char)) in H.
    rewrite rev_involutive in H. now apply Hne.
  - rewrite E. exists (rev p).
    now rewrite !rev_app_distr, !rev_involutive, <- app_assoc.
Qed.

Lemma strip_keeps_run (pre xs post : str) :
  no_space xs -> xs <> [] ->
  exists p q, strip (pre ++ xs ++ post) = p ++ xs ++ q.
Proof.
  intros Hns Hne. unfold strip.
  destruct (lstrip_keeps_run pre xs post Hns Hne) as (p & ->).
  destruct (rstrip_keeps_run p xs post Hns Hne) as (q & ->).
  now exists p, q.
Qed.

Lemma clean_keeps_run (pre xs post : str) :
  no_space xs -> xs <> [] ->
  exists p q, clean (pre ++ xs ++ post) = p ++ xs ++ q.
Proof.
  intros Hns Hne. unfold clean, re_sub_ws.
  destruct (sub_ws_from_app false pre (xs ++ post)) as (p & b & ->).
  rewrite (sub_ws_from_no_space b xs post Hns Hne).
  now apply strip_keeps_run.
Qed.


Lemma X_run_no_space (n : nat) : no_space (X_run n).
Proof. unfold no_space, X_run. apply Forall_forall. intros c Hc.
  apply repeat_spec in Hc. now subst. Qed.

Lemma starts_with_X_run (k n : nat) (q : str) :
  k <= n -> starts_with_X k (X_run n ++ q) = true.
Proof.
  revert n; induction k as [|k IH]; intros n Hle; [reflexivity|].
  destruct n as [|n]; [lia|]. simpl. apply IH. lia.
Qed.

Lemma re_search_X5_run (p q : str) (n : nat) :
  5 <= n -> re_search_X5 (p ++ X_run n ++ q) = true.
Proof.
  intros Hn. induction p as [|c p IH].
  - destruct n as [|n]; [lia|].
    change (re_search_X5 ((UPPER_X :: X_run n) ++ q) = true).
    cbn [app re_search_X5]. apply orb_true_iff. left.
    apply (starts_with_X_run 5 (S n) q Hn).
  - cbn [app re_search_X5]. apply orb_true_iff. now right.
Qed.

(** ** The classifier on strings *)

Lemma is_quality_english_str (rt : runtime) (s : str) (mw : Z) (mar : Q) (ml : Z) :
  is_quality_english rt (VScalar (SStr s)) mw mar ml =
  Ok (match strip s with
      | [] => false
      | _ :: _ => quality_checks rt s mw mar ml
      end).
Proof. unfold is_quality_english. simpl. now destruct (strip s). Qed.

Lemma Ok_inj {A : Type} (a b : A) : Ok a = Ok b <-> a = b.
Proof. split; [intros H; now injection H | now intros ->]. Qed.

Lemma is_quality_english_scalar (rt : runtime) (x : scalar) (mw : Z) (mar : Q) (ml : Z) :
  exists b, is_quality_english rt (VScalar x) mw mar ml = Ok b.
Proof.
  destruct x; try (now exists false).
  rewrite is_quality_english_str. eauto.
Qed.


Lemma ascii_rt_compatible (fs : read_mode -> str -> result DataFrame) :
  ascii_compatible (ascii_rt fs).
Proof. split; reflexivity. Qed.

Lemma alpha_chars_ascii (rt : runtime) (fs : read_mode -> str -> result DataFrame) (s : str) :
  ascii_compatible rt -> is_ascii s = true ->
  alpha_chars rt s = alpha_chars (ascii_rt fs) s.
Proof.
  intros [Ha _] Hs. unfold alpha_chars. f_equal.
  apply filter_ext_in. intros c Hc. simpl.
  apply Ha. unfold is_ascii in Hs. rewrite forallb_forall in Hs.
  now apply N.ltb_lt, Hs.
Qed.

Lemma quality_checks_ascii (rt : runtime) (fs : read_mode -> str -> result DataFrame)
    (s : str) (mw : Z) (mar : Q) (ml : Z) :
  ascii_compatible rt -> is_ascii (clean s) = true ->
  quality_checks rt s mw mar ml = quality_checks (ascii_rt fs) s mw mar ml.
Proof.
  intros Hrt Hs. unfold quality_checks, english_word_count.
  rewrite (alpha_chars_ascii rt fs _ Hrt Hs).
  destruct Hrt as [_ Hl]. now rewrite (Hl _ Hs).
Qed.

Lemma is_quality_english_ascii (rt : runtime) (fs : read_mode -> str -> result DataFrame)
    (s : str) (mw : Z) (mar : Q) (ml : Z) :
  ascii_compatible rt -> is_ascii (clean s) = true ->
  is_quality_english rt (VScalar (SStr s)) mw mar ml =
  is_quality_english (ascii_rt fs) (VScalar (SStr s)) mw mar ml.
Proof.
  intros Hrt Hs. rewrite !is_quality_english_str.
  now rewrite (quality_checks_ascii rt fs s mw mar ml Hrt Hs).
Qed.


(** C4.  A string shorter than [min_length] is rejected, whatever the other
    thresholds are: cleaning never lengthens a string.  In particular
    "ok" is rejected under the defaults. *)
Theorem short_text_rejected :
  (forall (rt : runtime) (s : str) (mw : Z) (mar : Q) (ml : Z),
      (Z.of_nat (length s) < ml)%Z ->
      is_quality_english rt (VScalar (SStr s)) mw mar ml = Ok false)
  /\
  (forall s : str, length (clean s) <= length s)
  /\
  (forall rt : runtime,
      is_quality_english rt (VScalar (SStr (py "ok")))
        MIN_WORDS MIN_ALPHA_RATIO MIN_LENGTH = Ok false).
Proof.
  assert (Hgen : forall rt s mw mar ml, (Z.of_nat (length s) < ml)%Z ->
            is_quality_english rt (VScalar (SStr s)) mw mar ml = Ok false).
  { intros rt s mw mar ml Hlen. rewrite is_quality_english_str.
    destruct (strip s); [reflexivity|].
    unfold quality_checks.
    pose proof (clean_length s) as Hc.
    replace (Z.of_nat (length (clean s)) <? ml)%Z with true
      by (symmetry; apply Z.ltb_lt; lia).
    reflexivity. }
  split; [exact Hgen|]. split; [exact clean_length|].
  intros rt. apply Hgen. vm_compute. reflexivity.
Qed.

Lemma short_text_rejected_witness :
  (Z.of_nat (length (py "ok")) < MIN_LENGTH)%Z /\
  is_quality_english (ascii_rt no_files) (VScalar (SStr (py "ok")))
    MIN_WORDS MIN_ALPHA_RATIO MIN_LENGTH = Ok false.
Proof.
  split; [vm_compute; reflexivity|].
  apply (proj1 short_text_rejected). vm_compute. reflexivity.
Defined.

(** C5.  A string that holds five or more consecutive letters X is
    rejected, whatever else it holds and whatever the thresholds are.  In
    particular "XXXXXXXXXX urgent call now" is rejected under the
    defaults. *)
Theorem placeholder_run_rejected :
  (forall (rt : runtime) (pre post : str) (n : nat) (mw : Z) (mar : Q) (ml : Z),
      5 <= n ->
      is_quality_english rt (VScalar (SStr (pre ++ X_run n ++ post))) mw mar ml
        = Ok false)
  /\
  (forall rt : runtime,
      is_quality_english rt (VScalar (SStr (py "XXXXXXXXXX urgent call now")))
        MIN_WORDS MIN_ALPHA_RATIO MIN_LENGTH = Ok false).
Proof.
  assert (Hgen : forall rt pre post n mw mar ml, 5 <= n ->
            is_quality_english rt (VScalar (SStr (pre ++ X_run n ++ post))) mw mar ml
              = Ok false).
  { intros rt pre post n mw mar ml Hn. rewrite is_quality_english_str.
    destruct (strip (pre ++ X_run n ++ post)); [reflexivity|].
    unfold quality_checks.
    destruct (clean_keeps_run pre (X_run n) post) as (p & q & ->).
    - apply X_run_no_space.
    - destruct n; [lia | discriminate].
    - rewrite (re_search_X5_run p q n Hn).
      now destruct (_ <? ml)%Z. }
  split; [exact Hgen|].
  intros rt.
  apply (Hgen rt [] (py " urgent call now") 10). lia.
Qed.

Lemma placeholder_run_rejected_witness :
  5 <= 10 /\
  is_quality_english (ascii_rt no_files)
    (VScalar (SStr (py "buy " ++ X_run 10 ++ py " of the bank now, please send the money")))
    MIN_WORDS MIN_ALPHA_RATIO MIN_LENGTH = Ok false.
Proof.
  split; [lia|].
  apply (proj1 placeholder_run_rejected). lia.
Defined.

(** C9.  On a list of two or more elements the classifier raises
    ValueError: the guard takes the truth value of the array that [pd.isna]
    returns before it asks whether the value is a string.  On a scalar
    (None, NaN, a number, a bool, a string) it returns a bool. *)
Theorem is_quality_english_raises_on_list :
  (forall (rt : runtime) (x y : scalar) (l : list scalar)
          (mw : Z) (mar : Q) (ml : Z),
      is_quality_english rt (VList (x :: y :: l)) mw mar ml = Raise ValueError)
  /\
  (forall rt : runtime,
      is_quality_english rt (VList [SInt 1; SInt 2])
        MIN_WORDS MIN_ALPHA_RATIO MIN_LENGTH = Raise ValueError)
  /\
  (forall (rt : runtime) (x : scalar) (mw : Z) (mar : Q) (ml : Z),
      exists b : bool, is_quality_english rt (VScalar x) mw mar ml = Ok b).
Proof.
  split; [|split].
  - intros rt x y l mw mar ml. unfold is_quality_english, pd_isna, truth.
    reflexivity.
  - intros rt. reflexivity.
  - intros rt x mw mar ml. apply is_quality_english_scalar.
Qed.

(** ** Sentinel cells never pass the classifier *)


Lemma lstrip_split (s : str) :
  exists w, all_space w /\ s = w ++ lstrip s.
Proof.
  induction s as [|c t (w & Hw & E)]; simpl.
  - exists []. split; [constructor | reflexivity].
  - destruct (isspace c) eqn:Hc.
    + exists (c :: w). split; [now constructor | simpl; congruence].
    + exists []. split; [constructor | reflexivity].
Qed.

Lemma rstrip_split (s : str) :
  exists w, all_space w /\ s = rstrip s ++ w.
Proof.
  unfold rstrip. destruct (lstrip_split (rev s)) as (w & Hw & E).
  exists (rev w). split.
  - now apply Forall_rev.
  - rewrite <- rev_app_distr, <- E. now rewrite rev_involutive.
Qed.

Lemma strip_split (s : str) :
  exists w1 w2, all_space w1 /\ all_space w2 /\ s = w1 ++ strip s ++ w2.
Proof.
  destruct (lstrip_split s) as (w1 & H1 & E1).
  destruct (rstrip_split (lstrip s)) as (w2 & H2 & E2).
  exists w1, w2. repeat split; try assumption.
  unfold strip. congruence.
Qed.

Lemma lstrip_all_space_app (w r : str) :
  all_space w -> lstrip (w ++ r) = lstrip r.
Proof.
  induction 1 as [|c w Hc Hw IH]; simpl; [reflexivity|]. now rewrite Hc.
Qed.

Lemma lstrip_no_space (m r : str) :
  no_space m -> m <> [] -> lstrip (m ++ r) = m ++ r.
Proof.
  intros Hm Hne. destruct Hm as [|c m Hc Hm]; [congruence|].
  simpl. now rewrite Hc.
Qed.

Lemma strip_padded (p m q : str) :
  all_space p -> all_space q -> no_space m -> m <> [] ->
  strip (p ++ m ++ q) = m.
Proof.
  intros Hp Hq Hm Hne. unfold strip, rstrip.
  rewrite (lstrip_all_space_app p _ Hp), (lstrip_no_space m q Hm Hne).
  rewrite rev_app_distr, (lstrip_all_space_app (rev q)) by now apply Forall_rev.
  rewrite <- (app_nil_r (rev m)), lstrip_no_space.
  - now rewrite app_nil_r, rev_involutive.
  - now apply no_space_rev.
  - intros H. apply (f_equal (@rev char)) in H.
    rewrite rev_involutive in H. now apply Hne.
Qed.

Lemma sub_ws_from_all_space (b : bool) (w r : str) :
  all_space w ->
  exists p b', all_space p /\ sub_ws_from b (w ++ r) = p ++ sub_ws_from b' r.
Proof.
  intros Hw. revert b. induction Hw as [|c w Hc Hw IH]; intros b.
  - exists [], b. split; [constructor | reflexivity].
  - simpl. rewrite Hc. destruct b.
    + apply IH.
    + destruct (IH true) as (p & b' & Hp & E).
      exists (SPACE :: p), b'. split; [now constructor | now rewrite E].
Qed.

Lemma clean_padded (w1 m w2 : str) :
  all_space w1 -> all_space w2 -> no_space m -> m <> [] ->
  clean (w1 ++ m ++ w2) = m.
Proof.
  intros H1 H2 Hm Hne. unfold clean, re_sub_ws.
  destruct (sub_ws_from_all_space false w1 (m ++ w2) H1) as (p & b & Hp & ->).
  rewrite (sub_ws_from_no_space b m w2 Hm Hne).
  destruct (sub_ws_from_all_space false w2 [] H2) as (q & b' & Hq & E).
  rewrite app_nil_r in E. rewrite E. simpl. rewrite app_nil_r.
  now apply strip_padded.
Qed.

(** When what is left after stripping has no whitespace inside, cleaning
    gives exactly that. *)
Lemma clean_of_word (s : str) :
  no_space (strip s) -> strip s <> [] -> clean s = strip s.
Proof.
  intros Hm Hne. destruct (strip_split s) as (w1 & w2 & H1 & H2 & E).
  rewrite E at 1. now apply clean_padded.
Qed.

Lemma sentinel_rejected (rt : runtime) (cell_text : str) :
  is_sentinel cell_text = true ->
  is_quality_english rt (VScalar (SStr cell_text))
    MIN_WORDS MIN_ALPHA_RATIO MIN_LENGTH = Ok false.
Proof.
  unfold is_sentinel. rewrite existsb_str_eqb_In. intros Hin.
  rewrite is_quality_english_str.
  destruct (strip cell_text) as [|c t] eqn:Es; [reflexivity|].
  assert (Hw : no_space (strip cell_text) /\ length (strip cell_text) <= 4).
  { rewrite Es. cbv in Hin.
    repeat (destruct Hin as [Hin | Hin];
            [ first [ discriminate
                    | injection Hin as <- <-; split;
                      [ repeat constructor | simpl; lia ] ] | ]).
    contradiction. }
  destruct Hw as [Hns Hlen].
  unfold quality_checks.
  rewrite (clean_of_word cell_text Hns) by (rewrite Es; discriminate).
  replace (Z.of_nat (length (strip cell_text)) <? MIN_LENGTH)%Z with true
    by (symmetry; apply Z.ltb_lt; unfold MIN_LENGTH; lia).
  reflexivity.
Qed.

(** ** The scan *)

Lemma passesb_passes (rt : runtime) (t : str) :
  passesb rt t = true <-> passes rt t.
Proof.
  unfold passesb, passes. rewrite is_quality_english_str, Ok_inj. tauto.
Qed.

Lemma is_quality_english_passesb (rt : runtime) (t : str) :
  is_quality_english rt (VScalar (SStr t)) MIN_WORDS MIN_ALPHA_RATIO MIN_LENGTH
    = Ok (passesb rt t).
Proof. unfold passesb. now rewrite is_quality_english_str. Qed.

Lemma sentinel_passesb (rt : runtime) (t : str) :
  is_sentinel t = true -> passesb rt t = false.
Proof.
  intros H. unfold passesb. now rewrite (sentinel_rejected rt t H).
Qed.

Lemma row_get_in_columns (df_columns : list str) (row : list scalar) (col : str) :
  in_columns col df_columns = true ->
  row_get df_columns row col = Ok (cell_at df_columns row col).
Proof.
  unfold row_get, cell_at, in_columns. intros Hin.
  assert (H : exists i, index_of col df_columns = Some i).
  { induction df_columns as [|c rest IH]; simpl in *; [discriminate|].
    destruct (str_eqb col c); [now exists 0|].
    destruct (IH Hin) as (i & ->). now exists (S i). }
  destruct H as (i & ->). reflexivity.
Qed.

Lemma in_columns_refl (cols : list str) :
  Forall (fun col => in_columns col cols = true) cols.
Proof.
  apply Forall_forall. intros col Hin. unfold in_columns.
  now apply existsb_str_eqb_In.
Qed.

(** The guard on [text_columns] leaves labels of the frame only. *)
Lemma select_columns_in_columns (df : DataFrame) (text_columns : option (list str)) :
  Forall (fun col => in_columns col (columns df) = true)
         (select_columns df text_columns).
Proof.
  unfold select_columns. destruct text_columns as [cols|].
  - destruct (forallb _ cols) eqn:E; simpl.
    + apply Forall_forall. now apply forallb_forall.
    + apply in_columns_refl.
  - apply in_columns_refl.
Qed.

Lemma scan_columns_ok (rt : runtime) (df_columns : list str) (row : list scalar)
    (cols : list str) :
  Forall (fun col => in_columns col df_columns = true) cols ->
  scan_columns rt df_columns row cols
    = Ok (passing_texts rt df_columns row cols).
Proof.
  unfold passing_texts, cell_texts.
  induction 1 as [|col rest Hcol Hrest IH]; [reflexivity|].
  cbn [scan_columns map filter].
  rewrite (row_get_in_columns _ _ _ Hcol). cbn [bind].
  destruct (is_sentinel (cell_text_of (cell_at df_columns row col))) eqn:Es.
  - rewrite (sentinel_passesb rt _ Es). exact IH.
  - rewrite is_quality_english_passesb, IH. cbn [bind].
    now destruct (passesb rt _).
Qed.

(** The head of the sorted list is the first longest text. *)

Lemma first_longest_bound (t : str) (l : list str) :
  first_longest t l -> Forall (fun u => length u <= length t) l.
Proof.
  intros (pre & post & -> & Hpre & Hpost).
  apply Forall_app. split.
  - eapply Forall_impl; [|exact Hpre]. simpl. intros; lia.
  - constructor; [lia | exact Hpost].
Qed.

Lemma sorted_head_first_longest (x : str) (l : list str) :
  exists t rest,
    sorted_by_len_desc (x :: l) = t :: rest /\ first_longest t (x :: l).
Proof.
  revert x. induction l as [|y l IH]; intros x.
  - exists x, []. split; [reflexivity|].
    exists [], []. repeat split; constructor.
  - destruct (IH y) as (t & rest & Es & Hfl).
    cbn [sorted_by_len_desc] in *. rewrite Es. cbn [insert_by_len].
    destruct (length x <? length t) eqn:Hlt.
    + apply Nat.ltb_lt in Hlt.
      exists t, (insert_by_len x rest). split; [reflexivity|].
      destruct Hfl as (pre & post & E & Hpre & Hpost).
      exists (x :: pre), post. rewrite E. repeat split; auto.
    + apply Nat.ltb_ge in Hlt.
      exists x, (t :: rest). split; [reflexivity|].
      exists [], (y :: l). repeat split; [constructor|].
      eapply Forall_impl; [|exact (first_longest_bound _ _ Hfl)].
      simpl. intros; lia.
Qed.

(** The model of [sorted] sorts: it permutes its argument and puts it in
    order of decreasing length. *)
Lemma insert_by_len_perm (x : str) (l : list str) :
  Permutation (x :: l) (insert_by_len x l).
Proof.
  induction l as [|y l IH]; simpl; [reflexivity|].
  destruct (length x <? length y); [|reflexivity].
  rewrite perm_swap. now constructor.
Qed.

Lemma sorted_by_len_desc_perm (l : list str) :
  Permutation l (sorted_by_len_desc l).
Proof.
  induction l as [|x l IH]; simpl; [reflexivity|].
  rewrite <- insert_by_len_perm. now constructor.
Qed.

Lemma insert_by_len_sorted (x : str) (l : list str) :
  Sorted (fun a b => length b <= length a) l ->
  Sorted (fun a b => length b <= length a) (insert_by_len x l).
Proof.
  induction 1 as [|y l Hs IH Hhd]; simpl.
  - repeat constructor.
  - destruct (length x <? length y) eqn:E.
    + apply Nat.ltb_lt in E. constructor; [exact IH|].
      destruct l as [|z l]; simpl.
      * constructor. lia.
      * destruct (length x <? length z); constructor.
        -- now inversion Hhd.
        -- lia.
    + apply Nat.ltb_ge in E. constructor.
      * now constructor.
      * now constructor.
Qed.

Lemma sorted_by_len_desc_sorted (l : list str) :
  Sorted (fun a b => length b <= length a) (sorted_by_len_desc l).
Proof.
  induction l as [|x l IH]; simpl; [constructor|].
  now apply insert_by_len_sorted.
Qed.

Lemma longest_text_record (row_texts : list str) :
  row_record row_texts (longest_text row_texts).
Proof.
  destruct row_texts as [|x l]; [reflexivity|].
  destruct (sorted_head_first_longest x l) as (t & rest & Es & Hfl).
  unfold longest_text. rewrite Es. exact Hfl.
Qed.

(** The first longest text is unique. *)
Lemma first_longest_unique (t u : str) (l : list str) :
  first_longest t l -> first_longest u l -> t = u.
Proof.
  intros (p1 & q1 & E1 & Hp1 & Hq1). revert p1 E1 Hp1.
  induction l as [|x l IH]; intros p1 E1 Hp1 (p2 & q2 & E2 & Hp2 & Hq2).
  - destruct p1; discriminate.
  - destruct p1 as [|a p1], p2 as [|b p2]; simpl in *.
    + congruence.
    + injection E1 as <- <-. injection E2 as <- ->.
      inversion Hp2; subst.
      assert (In u (p2 ++ u :: q2)) by (apply in_elt).
      rewrite Forall_forall in Hq1. specialize (Hq1 u H). lia.
    + injection E1 as <- ->. injection E2 as <- <-.
      inversion Hp1; subst.
      assert (In t (p1 ++ t :: q1)) by (apply in_elt).
      rewrite Forall_forall in Hq2. specialize (Hq2 t H). lia.
    + injection E1 as <- ->. injection E2 as <- E2.
      inversion Hp1; subst. inversion Hp2; subst.
      apply (IH p1 eq_refl H2). now exists p2, q2.
Qed.

(** The collected texts, row by row. *)
Lemma scan_rows_ok (rt : runtime) (df_columns cols : list str)
    (df_rows : list (list scalar)) :
  Forall (fun col => in_columns col df_columns = true) cols ->
  scan_rows rt df_columns cols df_rows
    = Ok (flat_map (fun row => record_list
                      (longest_text (passing_texts rt df_columns row cols)))
                   df_rows).
Proof.
  intros Hcols. induction df_rows as [|row rest IH]; [reflexivity|].
  cbn [scan_rows flat_map]. rewrite (scan_columns_ok _ _ _ _ Hcols), IH.
  cbn [bind]. now destruct (longest_text _).
Qed.

Lemma scan_rows_records (rt : runtime) (df : DataFrame)
    (text_columns : option (list str)) :
  one_record_per_row rt df text_columns (select_columns df text_columns).
Proof.
  unfold one_record_per_row.
  set (cols := select_columns df text_columns).
  exists (map (fun row => longest_text (passing_texts rt (columns df) row cols))
              (rows df)).
  split.
  - induction (rows df) as [|row rest IH]; constructor; [|exact IH].
    apply longest_text_record.
  - rewrite (scan_rows_ok rt _ _ _ (select_columns_in_columns df text_columns)).
    f_equal. fold cols. induction (rows df) as [|row rest IH]; [reflexivity|].
    simpl. now rewrite IH.
Qed.

(** ** drop_duplicates *)

Lemma drop_duplicates_from_In (seen l : list str) (x : str) :
  In x (drop_duplicates_from seen l) <-> In x l /\ ~ In x seen.
Proof.
  revert seen. induction l as [|y l IH]; intros seen; simpl.
  - tauto.
  - destruct (existsb (str_eqb y) seen) eqn:E.
    + apply existsb_str_eqb_In in E. rewrite IH. split.
      * tauto.
      * intros [[-> | H] Hn]; [contradiction | tauto].
    + assert (Hy : ~ In y seen).
      { intros H. apply existsb_str_eqb_In in H. congruence. }
      simpl. rewrite IH. simpl. split.
      * intros [-> | [H Hn]]; [tauto|]. split; [tauto|]. intros Hs. apply Hn. tauto.
      * intros [[-> | H] Hn]; [tauto|].
        destruct (list_eq_dec N.eq_dec y x) as [-> | Hne]; [tauto|].
        right. split; [assumption|]. intros [Heq | Hs]; [congruence | tauto].
Qed.

Lemma drop_duplicates_from_NoDup (seen l : list str) :
  NoDup (drop_duplicates_from seen l).
Proof.
  revert seen. induction l as [|y l IH]; intros seen; simpl.
  - constructor.
  - destruct (existsb (str_eqb y) seen); [apply IH|].
    constructor; [|apply IH].
    rewrite drop_duplicates_from_In. simpl. tauto.
Qed.

Lemma drop_duplicates_from_length (seen l : list str) :
  length (drop_duplicates_from seen l) <= length l.
Proof.
  revert seen. induction l as [|y l IH]; intros seen; simpl; [lia|].
  destruct (existsb (str_eqb y) seen); simpl.
  - specialize (IH seen). lia.
  - specialize (IH (y :: seen)). lia.
Qed.

(** A text keeps the place of its first occurrence: ahead of it stand the
    texts seen before it, deduplicated. *)
Lemma drop_duplicates_from_first (seen l1 : list str) (x : str) (l2 : list str) :
  ~ In x seen -> ~ In x l1 ->
  exists r2,
    drop_duplicates_from seen (l1 ++ x :: l2)
      = drop_duplicates_from seen l1 ++ x :: r2.
Proof.
  revert seen. induction l1 as [|y l1 IH]; intros seen Hs Hl; simpl.
  - destruct (existsb (str_eqb x) seen) eqn:E.
    + apply existsb_str_eqb_In in E. contradiction.
    + eauto.
  - simpl in Hl. destruct (existsb (str_eqb y) seen).
    + apply IH; tauto.
    + destruct (IH (y :: seen)) as (r2 & ->).
      * simpl. intros [H | H]; [apply Hl; left; exact H | tauto].
      * tauto.
      * now exists r2.
Qed.

Lemma scan_rows_length (rt : runtime) (df_columns cols : list str)
    (df_rows : list (list scalar)) (all_texts : list str) :
  scan_rows rt df_columns cols df_rows = Ok all_texts ->
  length all_texts <= length df_rows.
Proof.
  revert all_texts. induction df_rows as [|row rest IH]; intros all_texts; simpl.
  - intros H. apply (proj1 (Ok_inj _ _)) in H. subst. simpl. lia.
  - destruct (scan_columns rt df_columns row cols) as [row_texts|e];
      [|discriminate]. simpl.
    destruct (scan_rows rt df_columns cols rest) as [more|e];
      [|discriminate]. simpl.
    specialize (IH more eq_refl).
    intros H. apply (proj1 (Ok_inj _ _)) in H. subst.
    destruct (longest_text row_texts); simpl; lia.
Qed.

(** ** The whole function *)

Lemma extract_from_frame_written (rt : runtime) (df : DataFrame)
    (output_file : str) (text_columns : option (list str)) :
  exists all_texts,
    scan_rows rt (columns df) (select_columns df text_columns) (rows df)
      = Ok all_texts /\
    written (extract_from_frame rt df output_file text_columns)
      = Some (output_file, drop_duplicates all_texts) /\
    returned (extract_from_frame rt df output_file text_columns)
      = match rows df with
        | [] => Raise ZeroDivisionError
        | _ :: _ => Ok (drop_duplicates all_texts)
        end.
Proof.
  unfold extract_from_frame.
  rewrite (scan_rows_ok rt _ _ _ (select_columns_in_columns df text_columns)).
  eexists. split; [reflexivity|]. split; [reflexivity|].
  cbn [returned]. now destruct (rows df).
Qed.

Lemma extract_after_load (rt : runtime) (input_file output_file : str)
    (text_columns : option (list str)) (df : DataFrame) :
  snd (load_csv rt input_file) = Ok df ->
  extract_quality_english_text rt input_file output_file text_columns
    = extract_from_frame rt df output_file text_columns.
Proof. unfold extract_quality_english_text. now intros ->. Qed.

(** On ASCII tables every compatible runtime computes what the ASCII
    runtime computes. *)
Lemma passesb_ascii (rt : runtime) (fs : read_mode -> str -> result DataFrame)
    (t : str) :
  ascii_compatible rt -> is_ascii (clean t) = true ->
  passesb rt t = passesb (ascii_rt fs) t.
Proof.
  intros Hrt Ht. unfold passesb.
  now rewrite (is_quality_english_ascii rt fs t _ _ _ Hrt Ht).
Qed.

Lemma extract_from_frame_ascii (rt : runtime)
    (fs : read_mode -> str -> result DataFrame) (df : DataFrame)
    (output_file : str) (text_columns : option (list str)) :
  ascii_compatible rt ->
  ascii_frame df (select_columns df text_columns) = true ->
  extract_from_frame rt df output_file text_columns
    = extract_from_frame (ascii_rt fs) df output_file text_columns.
Proof.
  intros Hrt Hdf. unfold extract_from_frame.
  rewrite !(scan_rows_ok _ _ _ _ (select_columns_in_columns df text_columns)).
  assert (E : forall row, In row (rows df) ->
            passing_texts rt (columns df) row (select_columns df text_columns)
            = passing_texts (ascii_rt fs) (columns df) row
                (select_columns df text_columns)).
  { intros row Hrow. unfold passing_texts. apply filter_ext_in.
    intros t Ht. apply passesb_ascii; [assumption|].
    unfold ascii_frame in Hdf. rewrite forallb_forall in Hdf.
    specialize (Hdf row Hrow). rewrite forallb_forall in Hdf. now apply Hdf. }
  assert (E' : flat_map (fun row => record_list (longest_text
                 (passing_texts rt (columns df) row
                    (select_columns df text_columns)))) (rows df)
             = flat_map (fun row => record_list (longest_text
                 (passing_texts (ascii_rt fs) (columns df) row
                    (select_columns df text_columns)))) (rows df)).
  { clear Hdf. induction (rows df) as [|row rest IH]; [reflexivity|].
    simpl. rewrite (E row) by now left.
    rewrite IH; [reflexivity|]. intros r Hr. apply E. now right. }
  now rewrite E'.
Qed.

(** ** The reducer *)

(** C2, as stated: ties broken by the source's column order.  With the
    caller's list [["b", "a"]] on a table whose columns are [a, b] and whose
    row holds two passing texts of one length, the record is the text of
    column [b]. *)
Lemma tie_not_broken_by_source_order :
  ~ one_record_per_row (ascii_rt no_files) tie_table
      (Some [py "b"; py "a"])
      (in_source_order tie_table
         (select_columns tie_table (Some [py "b"; py "a"]))).
Proof.
  intros (records & HF & Hscan).
  assert (Hp : passing_texts (ascii_rt no_files) (columns tie_table)
                 [SStr text_single; SStr text_upper]
                 (in_source_order tie_table
                    (select_columns tie_table (Some [py "b"; py "a"])))
               = [text_single; text_upper]) by (vm_compute; reflexivity).
  change (rows tie_table) with [[SStr text_single; SStr text_upper]] in HF.
  inversion HF as [|row r rest recs Hr Hrest]; subst.
  inversion Hrest; subst. clear HF Hrest.
  rewrite Hp in Hr. destruct r as [t|]; simpl in Hr; [|discriminate].
  assert (Ht : t = text_single).
  { apply (first_longest_unique _ _ _ Hr).
    exists [], [text_upper]. split; [reflexivity|].
    split; repeat constructor. }
  subst t.
  assert (E : scan_rows (ascii_rt no_files) (columns tie_table)
                (select_columns tie_table (Some [py "b"; py "a"]))
                (rows tie_table) = Ok [text_upper]) by (vm_compute; reflexivity).
  rewrite E in Hscan. apply (proj1 (Ok_inj _ _)) in Hscan.
  cbn [flat_map record_list app] in Hscan.
  assert (Hne : str_eqb text_single text_upper = false)
    by (vm_compute; reflexivity).
  apply (f_equal (existsb (str_eqb text_single))) in Hscan.
  cbn [existsb] in Hscan. rewrite Hne, str_eqb_refl in Hscan.
  discriminate Hscan.
Qed.

(** C2, amended.  The texts collected by the scan are, row after row, one
    record for each row with a passing cell and none for the others; the
    record is the longest passing text of the row, the first of that length
    in the order in which the columns are scanned.  When no list is given
    that order is the source's column order. *)
Theorem longest_passing_cell_per_row :
  forall (rt : runtime) (df : DataFrame) (text_columns : option (list str)),
    one_record_per_row rt df text_columns (select_columns df text_columns) /\
    one_record_per_row rt df None (columns df).
Proof.
  intros rt df text_columns. split.
  - apply scan_rows_records.
  - apply (scan_rows_records rt df None).
Qed.

(** C3.  The written column is the collected texts with every text kept at
    its first occurrence only: it has no two equal entries, holds the same
    texts as the collection, keeps them in first-seen order, and has at most
    as many entries as the table has rows. *)
Theorem output_deduplicated :
  forall (rt : runtime) (df : DataFrame) (output_file : str)
         (text_columns : option (list str)),
  exists all_texts result_df,
    scan_rows rt (columns df) (select_columns df text_columns) (rows df)
      = Ok all_texts /\
    result_df = drop_duplicates all_texts /\
    written (extract_from_frame rt df output_file text_columns)
      = Some (output_file, result_df) /\
    (rows df <> [] ->
     returned (extract_from_frame rt df output_file text_columns)
       = Ok result_df) /\
    NoDup result_df /\
    (forall t, In t result_df <-> In t all_texts) /\
    (forall l1 t l2, all_texts = l1 ++ t :: l2 -> ~ In t l1 ->
       exists r2, result_df = drop_duplicates l1 ++ t :: r2) /\
    length result_df <= length all_texts /\
    length all_texts <= length (rows df).
Proof.
  intros rt df output_file text_columns.
  destruct (extract_from_frame_written rt df output_file text_columns)
    as (all_texts & Hscan & Hw & Hr).
  exists all_texts, (drop_duplicates all_texts).
  split; [exact Hscan|]. split; [reflexivity|]. split; [exact Hw|].
  split; [|split; [|split; [|split; [|split]]]].
  - intros Hne. rewrite Hr. destruct (rows df); [congruence | reflexivity].
  - apply drop_duplicates_from_NoDup.
  - intros t. unfold drop_duplicates. rewrite drop_duplicates_from_In.
    simpl. tauto.
  - intros l1 t l2 -> Hnot. unfold drop_duplicates.
    apply drop_duplicates_from_first; [simpl; tauto | exact Hnot].
  - apply drop_duplicates_from_length.
  - exact (scan_rows_length _ _ _ _ _ Hscan).
Qed.

Lemma output_deduplicated_witness :
  written (extract_from_frame (ascii_rt no_files) spaces_table (py "out.csv") None)
    = Some (py "out.csv", [text_single; text_double]) /\
  exists all_texts result_df,
    scan_rows (ascii_rt no_files) (columns spaces_table)
      (select_columns spaces_table None) (rows spaces_table) = Ok all_texts /\
    result_df = drop_duplicates all_texts /\ NoDup result_df.
Proof.
  split; [vm_compute; reflexivity|].
  destruct (output_deduplicated (ascii_rt no_files) spaces_table (py "out.csv") None)
    as (all_texts & result_df & H1 & H2 & _ & _ & H5 & _).
  exists all_texts, result_df. auto.
Defined.

(** C6.  The caller's columns are scanned when all of them are labels of
    the table; all the table's columns are scanned when no list is given or
    when a given label is not in the table.  The written texts are those of
    the chosen columns. *)
Theorem scanned_columns_choice :
  forall df : DataFrame,
    select_columns df None = columns df /\
    (forall cols, (forall c, In c cols -> In c (columns df)) ->
       select_columns df (Some cols) = cols) /\
    (forall cols, (exists c, In c cols /\ ~ In c (columns df)) ->
       select_columns df (Some cols) = columns df) /\
    (forall rt output_file text_columns,
       written (extract_from_frame rt df output_file text_columns)
       = Some (output_file,
               drop_duplicates
                 (flat_map (fun row => record_list (longest_text
                     (passing_texts rt (columns df) row
                        (select_columns df text_columns))))
                   (rows df)))).
Proof.
  intros df. split; [reflexivity|]. split; [|split].
  - intros cols Hall. unfold select_columns.
    replace (forallb (fun col => in_columns col (columns df)) cols) with true;
      [reflexivity|].
    symmetry. apply forallb_forall. intros c Hc.
    apply existsb_str_eqb_In. now apply Hall.
  - intros cols (c & Hc & Hnot). unfold select_columns.
    replace (forallb (fun col => in_columns col (columns df)) cols) with false;
      [reflexivity|].
    symmetry. apply not_true_is_false. intros H.
    rewrite forallb_forall in H. specialize (H c Hc).
    apply existsb_str_eqb_In in H. contradiction.
  - intros rt output_file text_columns. unfold extract_from_frame.
    now rewrite (scan_rows_ok rt _ _ _ (select_columns_in_columns df text_columns)).
Qed.

Lemma scanned_columns_choice_witness :
  select_columns spaces_table (Some [py "text"]) = [py "text"] /\
  select_columns spaces_table (Some [py "text"; py "body"])
    = [py "id"; py "text"].
Proof.
  destruct (scanned_columns_choice spaces_table) as (_ & Hin & Hout & _).
  split.
  - apply Hin. intros c [<- | []]. right; left; reflexivity.
  - apply Hout. exists (py "body"). split.
    + right; left; reflexivity.
    + intros [H | [H | []]]; vm_compute in H; discriminate.
Defined.

(** C7.  Loading tries the default parse, then the Latin-1 parse, then the
    lenient parse, each later one only when the one before raised; the first
    that succeeds gives the table.  The call raises only when all three
    raised, and then with the exception of the last attempt, before anything
    is written. *)
Theorem load_csv_fallback_chain :
  forall (rt : runtime) (input_file : str),
    (forall df, read_csv rt ReadDefault input_file = Ok df ->
       load_csv rt input_file = ([ReadDefault], Ok df)) /\
    (forall e1 df,
       read_csv rt ReadDefault input_file = Raise e1 ->
       read_csv rt ReadLatin1 input_file = Ok df ->
       load_csv rt input_file = ([ReadDefault; ReadLatin1], Ok df)) /\
    (forall e1 e2,
       read_csv rt ReadDefault input_file = Raise e1 ->
       read_csv rt ReadLatin1 input_file = Raise e2 ->
       load_csv rt input_file
         = ([ReadDefault; ReadLatin1; ReadLenient],
            read_csv rt ReadLenient input_file)) /\
    (forall e, snd (load_csv rt input_file) = Raise e <->
       exists e1 e2,
         read_csv rt ReadDefault input_file = Raise e1 /\
         read_csv rt ReadLatin1 input_file = Raise e2 /\
         read_csv rt ReadLenient input_file = Raise e) /\
    (forall e output_file text_columns,
       snd (load_csv rt input_file) = Raise e ->
       extract_quality_english_text rt input_file output_file text_columns
         = {| written := None; returned := Raise e |}).
Proof.
  intros rt input_file. unfold extract_quality_english_text, load_csv.
  destruct (read_csv rt ReadDefault input_file) as [df1|e1];
    [|destruct (read_csv rt ReadLatin1 input_file) as [df2|e2]]; simpl;
  repeat match goal with |- _ /\ _ => split end; intros; try congruence;
  try (split; [discriminate | intros (x1 & x2 & H1 & H2 & H3); discriminate]).
  - split.
    + intros H. now exists e1, e2.
    + intros (x1 & x2 & _ & _ & H). exact H.
  - match goal with H : _ = Raise e |- _ => now rewrite H end.
Qed.

Lemma load_csv_fallback_chain_witness :
  load_csv (ascii_rt (latin1_only spaces_table)) (py "in.csv")
    = ([ReadDefault; ReadLatin1], Ok spaces_table) /\
  extract_quality_english_text (ascii_rt no_files) (py "in.csv") (py "out.csv") None
    = {| written := None; returned := Raise (OtherException 2) |}.
Proof.
  split.
  - apply (proj1 (proj2 (load_csv_fallback_chain
                           (ascii_rt (latin1_only spaces_table)) (py "in.csv")))
             (OtherException 1)); reflexivity.
  - apply (proj2 (proj2 (proj2 (proj2 (load_csv_fallback_chain
                           (ascii_rt no_files) (py "in.csv")))))).
    reflexivity.
Defined.

(** C8.  When the loaded table has no rows the call raises
    ZeroDivisionError, after the (empty) output has been written: the
    percentage of the final report divides by the number of rows. *)
Theorem empty_source_division_by_zero :
  forall (rt : runtime) (input_file output_file : str)
         (text_columns : option (list str)) (df : DataFrame),
    snd (load_csv rt input_file) = Ok df ->
    rows df = [] ->
    extract_quality_english_text rt input_file output_file text_columns
      = {| written := Some (output_file, []);
           returned := Raise ZeroDivisionError |}.
Proof.
  intros rt input_file output_file text_columns df Hload Hrows.
  unfold extract_quality_english_text. rewrite Hload.
  unfold extract_from_frame. rewrite Hrows. reflexivity.
Qed.

Lemma empty_source_division_by_zero_witness :
  snd (load_csv (ascii_rt (one_file header_only)) (py "in.csv")) = Ok header_only /\
  rows header_only = [] /\
  returned (extract_quality_english_text (ascii_rt (one_file header_only))
              (py "in.csv") (py "out.csv") None)
    = Raise ZeroDivisionError.
Proof.
  split; [reflexivity|]. split; [reflexivity|].
  rewrite (empty_source_division_by_zero (ascii_rt (one_file header_only))
             (py "in.csv") (py "out.csv") None header_only);
    reflexivity.
Defined.

Lemma first_longest_In (t : str) (l : list str) : first_longest t l -> In t l.
Proof. intros (pre & post & -> & _). apply in_elt. Qed.

(** Every collected text is the coerced text of a scanned cell that
    passes. *)
Lemma collected_text_origin (rt : runtime) (df : DataFrame)
    (text_columns : option (list str)) (all_texts : list str) (t : str) :
  scan_rows rt (columns df) (select_columns df text_columns) (rows df)
    = Ok all_texts ->
  In t all_texts ->
  exists row col,
    In row (rows df) /\ In col (select_columns df text_columns) /\
    t = cell_text_of (cell_at (columns df) row col) /\ passes rt t.
Proof.
  rewrite (scan_rows_ok rt _ _ _ (select_columns_in_columns df text_columns)).
  intros H Hin. apply (proj1 (Ok_inj _ _)) in H. subst all_texts.
  apply in_flat_map in Hin as (row & Hrow & Ht).
  pose proof (longest_text_record
                (passing_texts rt (columns df) row
                   (select_columns df text_columns))) as Hrec.
  destruct (longest_text _) as [u|]; simpl in Ht; [|contradiction].
  destruct Ht as [-> | []]. simpl in Hrec.
  apply first_longest_In in Hrec. unfold passing_texts in Hrec.
  apply filter_In in Hrec as [Hcell Hpass].
  unfold cell_texts in Hcell. apply in_map_iff in Hcell as (col & <- & Hcol).
  exists row, col. repeat split; try assumption.
  now apply passesb_passes.
Qed.

(** C10.  Every written text is the coerced text of a cell as the table
    holds it, not its cleaned form, and every collected text is written.
    So of three rows holding "please call the bank now", the same with two
    spaces before "bank", and the first text again, the first two texts are
    both written, although cleaning makes them equal. *)
Theorem output_keeps_original_text :
  (forall (rt : runtime) (df : DataFrame) (output_file : str)
          (text_columns : option (list str)) (result_df : list str) (t : str),
      written (extract_from_frame rt df output_file text_columns)
        = Some (output_file, result_df) ->
      In t result_df ->
      exists row col,
        In row (rows df) /\ In col (select_columns df text_columns) /\
        t = cell_text_of (cell_at (columns df) row col) /\ passes rt t)
  /\
  (forall (rt : runtime) (df : DataFrame) (output_file : str)
          (text_columns : option (list str)) (all_texts : list str) (t : str),
      scan_rows rt (columns df) (select_columns df text_columns) (rows df)
        = Ok all_texts ->
      In t all_texts ->
      exists result_df,
        written (extract_from_frame rt df output_file text_columns)
          = Some (output_file, result_df) /\ In t result_df)
  /\
  (forall (rt : runtime) (output_file : str),
      ascii_compatible rt ->
      clean text_single = clean text_double /\
      text_single <> text_double /\
      extract_from_frame rt spaces_table output_file None
        = {| written := Some (output_file, [text_single; text_double]);
             returned := Ok [text_single; text_double] |}).
Proof.
  split; [|split].
  - intros rt df output_file text_columns result_df t Hw Hin.
    destruct (extract_from_frame_written rt df output_file text_columns)
      as (all_texts & Hscan & Hw' & _).
    rewrite Hw' in Hw. injection Hw as <-.
    apply (collected_text_origin rt df text_columns all_texts t Hscan).
    unfold drop_duplicates in Hin.
    now apply drop_duplicates_from_In in Hin.
  - intros rt df output_file text_columns all_texts t Hscan Hin.
    destruct (extract_from_frame_written rt df output_file text_columns)
      as (all_texts' & Hscan' & Hw' & _).
    rewrite Hscan in Hscan'. apply (proj1 (Ok_inj _ _)) in Hscan'. subst all_texts'.
    exists (drop_duplicates all_texts). split; [exact Hw'|].
    unfold drop_duplicates. apply drop_duplicates_from_In. simpl. tauto.
  - intros rt output_file Hrt.
    split; [vm_compute; reflexivity|].
    split; [vm_compute; discriminate|].
    rewrite (extract_from_frame_ascii rt no_files) by
      (assumption || (vm_compute; reflexivity)).
    unfold extract_from_frame.
    replace (scan_rows (ascii_rt no_files) (columns spaces_table)
               (select_columns spaces_table None) (rows spaces_table))
      with (Ok [text_single; text_double; text_single])
      by (vm_compute; reflexivity).
    reflexivity.
Qed.

Lemma output_keeps_original_text_witness :
  written (extract_from_frame (ascii_rt no_files) spaces_table (py "out.csv") None)
    = Some (py "out.csv", [text_single; text_double]) /\
  In text_double [text_single; text_double] /\
  exists row col,
    In row (rows spaces_table) /\
    In col (select_columns spaces_table None) /\
    text_double = cell_text_of (cell_at (columns spaces_table) row col) /\
    passes (ascii_rt no_files) text_double.
Proof.
  assert (Hw : written (extract_from_frame (ascii_rt no_files) spaces_table
                          (py "out.csv") None)
               = Some (py "out.csv", [text_single; text_double]))
    by (vm_compute; reflexivity).
  assert (Hin : In text_double [text_single; text_double])
    by (right; left; reflexivity).
  split; [exact Hw|]. split; [exact Hin|].
  exact (proj1 output_keeps_original_text (ascii_rt no_files) spaces_table
           (py "out.csv") None [text_single; text_double] text_double Hw Hin).
Defined.

(** * Further properties *)

(** ** Cleaning is joining the words with single spaces *)

Lemma lstrip_snoc (v : str) (c : char) :
  lstrip (v ++ [c]) =
  match lstrip v with
  | [] => if isspace c then [] else [c]
  | _ :: _ => lstrip v ++ [c]
  end.
Proof.
  induction v as [|a v IH]; simpl; [reflexivity|].
  destruct (isspace a); [exact IH | reflexivity].
Qed.

Lemma rstrip_cons (c : char) (u : str) :
  rstrip (c :: u) =
  match rstrip u with
  | [] => if isspace c then [] else [c]
  | _ :: _ => c :: rstrip u
  end.
Proof.
  unfold rstrip. simpl. rewrite lstrip_snoc.
  destruct (lstrip (rev u)) as [|a l]; simpl.
  - now destruct (isspace c).
  - rewrite rev_app_distr. simpl.
    destruct (rev l ++ [a]) as [|b r] eqn:E; [|reflexivity].
    now destruct (rev l).
Qed.

Lemma rstrip_cons_no_space (c : char) (u : str) :
  isspace c = false -> rstrip (c :: u) = c :: rstrip u.
Proof. intros H. rewrite rstrip_cons, H. now destruct (rstrip u). Qed.

Lemma lstrip_sub_ws_from (b : bool) (s : str) :
  lstrip (sub_ws_from b s) = sub_ws_from false (lstrip s).
Proof.
  revert b. induction s as [|c t IH]; intros b; simpl; [reflexivity|].
  destruct (isspace c) eqn:Hc.
  - destruct b; simpl; apply IH.
  - simpl. now rewrite Hc.
Qed.

Lemma sub_ws_from_true_lstrip (s : str) :
  sub_ws_from true s = sub_ws_from false (lstrip s).
Proof.
  induction s as [|c t IH]; simpl; [reflexivity|].
  destruct (isspace c) eqn:Hc; [exact IH|]. simpl. now rewrite Hc.
Qed.

Lemma clean_rstrip (s : str) : clean s = rstrip (sub_ws_from true s).
Proof.
  unfold clean, strip, re_sub_ws.
  now rewrite lstrip_sub_ws_from, sub_ws_from_true_lstrip.
Qed.

Lemma split_from_words (cur s : str) :
  no_space cur -> Forall is_word (split_from cur s).
Proof.
  revert cur. induction s as [|c t IH]; intros cur Hcur; simpl.
  - destruct cur as [|a cur']; constructor; [|constructor].
    split; [now apply no_space_rev|].
    simpl. now destruct (rev cur').
  - destruct (isspace c) eqn:Hc.
    + destruct cur as [|a cur']; [apply IH; constructor|].
      constructor; [|apply IH; constructor].
      split; [now apply no_space_rev|].
      simpl. now destruct (rev cur').
    + apply IH. now constructor.
Qed.

Lemma split_words (s : str) : Forall is_word (split s).
Proof. apply split_from_words. constructor. Qed.

Lemma join_space_nil (words : list str) :
  Forall is_word words -> join_space words = [] -> words = [].
Proof.
  intros Hw. destruct Hw as [|w rest [_ Hne] _]; [reflexivity|].
  simpl. destruct rest; [congruence|].
  destruct w; [congruence | discriminate].
Qed.

Lemma join_space_cons (w : str) (rest : list str) :
  join_space (w :: rest) =
  match rest with
  | [] => w
  | _ :: _ => w ++ SPACE :: join_space rest
  end.
Proof. reflexivity. Qed.

Lemma rev_cons_not_nil (a : char) (cur : str) : rev (a :: cur) <> [].
Proof. simpl. now destruct (rev cur). Qed.

Lemma clean_split_from (s : str) :
  (forall cur, cur <> [] ->
     rev cur ++ rstrip (sub_ws_from false s) = join_space (split_from cur s)) /\
  rstrip (sub_ws_from true s) = join_space (split_from [] s).
Proof.
  induction s as [|c t [IH1 IH2]].
  - split; [|reflexivity]. intros cur Hne. simpl.
    destruct cur; [congruence|]. simpl. now rewrite app_nil_r.
  - split.
    + intros cur Hne. simpl. destruct (isspace c) eqn:Hc.
      * destruct cur as [|a cur']; [congruence|].
        rewrite join_space_cons, rstrip_cons, IH2.
        pose proof (split_from_words [] t (Forall_nil _)) as Hw.
        destruct (split_from [] t) as [|w ws] eqn:Es.
        -- simpl. now rewrite app_nil_r.
        -- destruct (join_space (w :: ws)) as [|x xs] eqn:Ej.
           ++ apply join_space_nil in Ej; [discriminate | exact Hw].
           ++ reflexivity.
      * rewrite (rstrip_cons_no_space c _ Hc).
        rewrite <- (IH1 (c :: cur)) by discriminate.
        simpl. now rewrite <- app_assoc.
    + simpl. destruct (isspace c) eqn:Hc; [exact IH2|].
      rewrite (rstrip_cons_no_space c _ Hc).
      rewrite <- (IH1 [c]) by discriminate. reflexivity.
Qed.

Lemma clean_join_split (s : str) : clean s = join_space (split s).
Proof. rewrite clean_rstrip. apply (proj2 (clean_split_from s)). Qed.

Lemma split_from_no_space (w cur r : str) :
  no_space w -> split_from cur (w ++ r) = split_from (rev w ++ cur) r.
Proof.
  intros Hw. revert cur. induction Hw as [|c w Hc Hw IH]; intros cur; simpl.
  - reflexivity.
  - rewrite Hc, IH. now rewrite <- app_assoc.
Qed.

Lemma split_join_space (words : list str) :
  Forall is_word words -> split (join_space words) = words.
Proof.
  unfold split. induction 1 as [|w rest [Hns Hne] Hrest IH]; [reflexivity|].
  rewrite join_space_cons. destruct rest as [|w2 rest'].
  - rewrite <- (app_nil_r w) at 1. rewrite (split_from_no_space w [] [] Hns).
    rewrite app_nil_r. simpl.
    destruct (rev w) as [|a l] eqn:E.
    + apply (f_equal (@rev char)) in E. rewrite rev_involutive in E.
      simpl in E. congruence.
    + rewrite <- E. now rewrite rev_involutive.
  - rewrite (split_from_no_space w [] _ Hns). rewrite app_nil_r.
    cbn [split_from]. change (isspace SPACE) with true. cbv iota.
    destruct (rev w) as [|a l] eqn:E.
    + apply (f_equal (@rev char)) in E. rewrite rev_involutive in E.
      simpl in E. congruence.
    + rewrite <- E, rev_involutive. f_equal. exact IH.
Qed.

Lemma split_clean (s : str) : split (clean s) = split s.
Proof. rewrite clean_join_split. apply split_join_space, split_words. Qed.

Lemma clean_idempotent (s : str) : clean (clean s) = clean s.
Proof. now rewrite (clean_join_split (clean s)), split_clean, clean_join_split. Qed.

(** ** A keyword matches when it is one of the words *)

Lemma no_space_not_SPACE (c : char) :
  isspace c = false -> char_eqb c SPACE = false /\ char_eqb SPACE c = false.
Proof.
  intros Hc. unfold char_eqb. split; apply N.eqb_neq; intros E; subst;
    discriminate.
Qed.

Lemma char_eqb_refl (c : char) : char_eqb c c = true.
Proof. apply N.eqb_refl. Qed.

Lemma startswith_word (w w1 tail : str) :
  no_space w -> no_space w1 ->
  (startswith (w ++ [SPACE]) (w1 ++ SPACE :: tail) = true <-> w = w1).
Proof.
  intros Hw. revert w1. induction Hw as [|a w Ha Hw IH]; intros w1 Hw1.
  - destruct Hw1 as [|c w1 Hc Hw1]; cbn [app startswith].
    + rewrite char_eqb_refl. tauto.
    + rewrite (proj2 (no_space_not_SPACE c Hc)). cbn [andb].
      split; discriminate.
  - destruct Hw1 as [|c w1 Hc Hw1]; cbn [app startswith].
    + rewrite (proj1 (no_space_not_SPACE a Ha)). cbn [andb].
      split; discriminate.
    + rewrite andb_true_iff, (IH w1 Hw1). unfold char_eqb. rewrite N.eqb_eq.
      split; [intros [-> ->]; reflexivity | intros H; injection H; auto].
Qed.

Lemma str_in_skip_word (pat_rest w1 tail : str) :
  no_space w1 ->
  str_in (SPACE :: pat_rest) (w1 ++ tail) = str_in (SPACE :: pat_rest) tail.
Proof.
  induction 1 as [|c w1 Hc Hw1 IH]; [reflexivity|].
  cbn [app str_in startswith].
  rewrite (proj2 (no_space_not_SPACE c Hc)). simpl. exact IH.
Qed.

Lemma str_in_spaced (w : str) (words : list str) :
  is_word w -> Forall is_word words ->
  (str_in (SPACE :: w ++ [SPACE]) (SPACE :: spaced words) = true <-> In w words).
Proof.
  intros [Hw Hne] Hws. induction Hws as [|w1 rest [Hw1 _] Hrest IH].
  - destruct w as [|a w']; [congruence|].
    cbn [spaced flat_map app str_in startswith].
    rewrite char_eqb_refl. cbn [andb orb].
    split; [discriminate | contradiction].
  - unfold spaced. cbn [flat_map]. fold (spaced rest).
    rewrite <- app_assoc. cbn [app].
    cbn [str_in]. rewrite orb_true_iff.
    rewrite (str_in_skip_word _ w1 _ Hw1), IH.
    cbn [startswith]. rewrite char_eqb_refl. cbn [andb].
    rewrite (startswith_word w w1 (spaced rest) Hw Hw1).
    cbn [In]. split; intros [H | H]; auto.
Qed.

Lemma join_space_spaced (words : list str) :
  words <> [] -> join_space words ++ [SPACE] = spaced words.
Proof.
  induction words as [|w rest IH]; [congruence|]. intros _.
  rewrite join_space_cons. unfold spaced. cbn [flat_map]. fold (spaced rest).
  destruct rest as [|w2 rest']; [simpl; now rewrite app_nil_r|].
  rewrite <- IH by discriminate. now rewrite <- !app_assoc.
Qed.

Lemma has_word_join_space (w : str) (words : list str) :
  is_word w -> Forall is_word words ->
  (has_word (join_space words) w = true <-> In w words).
Proof.
  intros Hw Hws. unfold has_word. cbn [app].
  destruct words as [|w1 rest].
  - destruct Hw as [Hns Hne]. destruct w as [|a w']; [congruence|].
    inversion Hns as [|? ? Ha _]; subst.
    cbn [join_space app str_in startswith].
    rewrite char_eqb_refl, (proj1 (no_space_not_SPACE a Ha)).
    cbn [andb orb].
    split; [discriminate | contradiction].
  - rewrite join_space_spaced by discriminate.
    now apply str_in_spaced.
Qed.

Lemma has_word_clean (w text : str) :
  is_word w -> (has_word (clean text) w = true <-> In w (split text)).
Proof.
  intros Hw. rewrite clean_join_split.
  apply has_word_join_space; [exact Hw | apply split_words].
Qed.

(** ** Lower-casing ASCII text commutes with cleaning *)

Lemma isspace_range (c : char) :
  isspace c = true -> (c <= 32 \/ 133 <= c)%N.
Proof.
  unfold isspace.
  rewrite !orb_true_iff, !andb_true_iff, !N.leb_le, !N.eqb_eq. lia.
Qed.

Lemma isspace_ascii_lower_char (c : char) :
  isspace (ascii_lower_char c) = isspace c.
Proof.
  unfold ascii_lower_char.
  destruct ((65 <=? c) && (c <=? 90))%N eqn:E; [|reflexivity].
  apply andb_true_iff in E as [H1 H2].
  apply N.leb_le in H1. apply N.leb_le in H2.
  destruct (isspace c) eqn:Hc; [apply isspace_range in Hc; lia|].
  destruct (isspace (c + 32)%N) eqn:Hc'; [apply isspace_range in Hc'; lia|].
  reflexivity.
Qed.

Lemma ascii_lower_map (s : str) : ascii_lower s = map ascii_lower_char s.
Proof. reflexivity. Qed.

Lemma split_from_ascii_lower (cur s : str) :
  split_from (ascii_lower cur) (ascii_lower s)
  = map ascii_lower (split_from cur s).
Proof.
  change ascii_lower with (map ascii_lower_char).
  revert cur. induction s as [|c t IH]; intros cur.
  - destruct cur as [|a cur']; [reflexivity|].
    cbn [map split_from]. rewrite map_rev. reflexivity.
  - cbn [map split_from].
    rewrite isspace_ascii_lower_char. destruct (isspace c).
    + destruct cur as [|a cur']; [apply (IH [])|].
      pose proof (IH []) as IH0. cbn [map] in IH0 |- *.
      rewrite IH0, map_rev. reflexivity.
    + apply (IH (c :: cur)).
Qed.

Lemma join_space_ascii_lower (words : list str) :
  ascii_lower (join_space words) = join_space (map ascii_lower words).
Proof.
  change ascii_lower with (map ascii_lower_char).
  induction words as [|w rest IH]; [reflexivity|].
  cbn [map]. rewrite !join_space_cons. destruct rest as [|w2 rest'];
    [reflexivity|].
  rewrite <- IH, map_app. reflexivity.
Qed.

Lemma ascii_lower_clean (s : str) : ascii_lower (clean s) = clean (ascii_lower s).
Proof.
  rewrite !clean_join_split, join_space_ascii_lower. f_equal.
  symmetry. apply (split_from_ascii_lower [] s).
Qed.

(** ** More on the classifier *)

Lemma lstrip_head (s : str) (c : char) (t : str) :
  lstrip s = c :: t -> isspace c = false.
Proof.
  induction s as [|a s IH]; simpl; [discriminate|].
  destruct (isspace a) eqn:Ha; [exact IH|].
  intros H. injection H as <- _. exact Ha.
Qed.

Lemma clean_lstrip (s : str) : clean s = rstrip (sub_ws_from false (lstrip s)).
Proof. unfold clean, strip, re_sub_ws. now rewrite lstrip_sub_ws_from. Qed.

Lemma strip_nil_clean_nil (s : str) : strip s = [] <-> clean s = [].
Proof.
  rewrite clean_lstrip. unfold strip.
  destruct (lstrip s) as [|c t] eqn:E; [tauto|].
  pose proof (lstrip_head s c t E) as Hc.
  cbn [sub_ws_from]. rewrite Hc, !(rstrip_cons_no_space c _ Hc).
  split; discriminate.
Qed.

Lemma all_space_strip (s : str) : all_space s -> strip s = [].
Proof.
  intros H. unfold strip.
  rewrite <- (app_nil_r s), (lstrip_all_space_app s [] H). reflexivity.
Qed.

Lemma split_no_space (w : str) : no_space w -> length (split w) <= 1.
Proof.
  intros Hw. unfold split.
  rewrite <- (app_nil_r w), (split_from_no_space w [] [] Hw). simpl.
  destruct (rev w ++ []); simpl; lia.
Qed.

Lemma X_run_survives (s : str) :
  re_search_X5 (clean s) = false ->
  forall pre n post, s = pre ++ X_run n ++ post -> n < 5.
Proof.
  intros H pre n post ->.
  destruct (Nat.lt_ge_cases n 5) as [Hlt | Hge]; [exact Hlt|].
  destruct (clean_keeps_run pre (X_run n) post) as (p & q & E).
  - apply X_run_no_space.
  - destruct n; [lia | discriminate].
  - rewrite E, (re_search_X5_run p q n Hge) in H. discriminate.
Qed.

Lemma float_ltb_Q_mono (x : spec_float) (r r' : Q) :
  (r <= r')%Q -> float_ltb_Q x r' = false -> float_ltb_Q x r = false.
Proof.
  intros Hr. destruct x as [s | s | | s m e]; simpl; try (intros H; exact H).
  - rewrite !negb_false_iff, !Qle_bool_iff. intros H.
    now apply (Qle_trans _ r').
  - rewrite !negb_false_iff, !Qle_bool_iff. intros H.
    now apply (Qle_trans _ r').
Qed.

Lemma ratio_below_mono (alpha len : nat) (r r' : Q) :
  (r <= r')%Q -> ratio_below alpha len r' = false ->
  ratio_below alpha len r = false.
Proof. unfold ratio_below. apply float_ltb_Q_mono. Qed.

Lemma quality_checks_true (rt : runtime) (s : str) (mw : Z) (mar : Q) (ml : Z) :
  quality_checks rt s mw mar ml = true ->
  (ml <= Z.of_nat (length (clean s)))%Z /\
  re_search_X5 (clean s) = false /\
  (mw <= Z.of_nat (length (split (clean s))))%Z /\
  (0 <? length (clean s)) &&
    ratio_below (alpha_chars rt (clean s)) (length (clean s)) mar = false /\
  (if 50 <? length (clean s) then 2 else 1) <= english_word_count rt (clean s).
Proof.
  unfold quality_checks.
  destruct (Z.of_nat (length (clean s)) <? ml)%Z eqn:E1; [discriminate|].
  destruct (re_search_X5 (clean s)) eqn:E2; [discriminate|].
  destruct (Z.of_nat (length (split (clean s))) <? mw)%Z eqn:E3; [discriminate|].
  destruct ((0 <? length (clean s)) && ratio_below _ _ mar) eqn:E4;
    [discriminate|].
  apply Z.ltb_ge in E1. apply Z.ltb_ge in E3.
  intros H. repeat split; try assumption.
  destruct (50 <? length (clean s)); apply Nat.leb_le; exact H.
Qed.

Lemma is_quality_english_true (rt : runtime) (s : str) (mw : Z) (mar : Q) (ml : Z) :
  is_quality_english rt (VScalar (SStr s)) mw mar ml = Ok true ->
  strip s <> [] /\ quality_checks rt s mw mar ml = true.
Proof.
  rewrite is_quality_english_str, Ok_inj.
  destruct (strip s); [discriminate|]. intros H. split; [discriminate | exact H].
Qed.

Lemma length_pos_In {A : Type} (l : list A) :
  1 <= length l -> exists x, In x l.
Proof. destruct l as [|x l]; simpl; [lia | eauto]. Qed.

(** The list's words are words. *)
Lemma is_wordb_is_word (w : str) : is_wordb w = true -> is_word w.
Proof.
  unfold is_wordb, is_word. rewrite andb_true_iff, !negb_true_iff.
  intros [Hs Hne]. split.
  - apply Forall_forall. intros c Hc.
    destruct (isspace c) eqn:E; [|reflexivity].
    assert (existsb isspace w = true) by (apply existsb_exists; eauto).
    congruence.
  - intros ->. discriminate.
Qed.

Lemma common_english_words_are_words : Forall is_word common_english_words.
Proof.
  apply Forall_forall. intros w Hw. apply is_wordb_is_word.
  assert (H : forallb is_wordb common_english_words = true)
    by (vm_compute; reflexivity).
  rewrite forallb_forall in H. now apply H.
Qed.

Lemma has_word_ascii (rt : runtime) (s w : str) :
  ascii_compatible rt -> is_ascii (clean s) = true -> is_word w ->
  (has_word (lower rt (clean s)) w = true <-> In w (split (ascii_lower s))).
Proof.
  intros [_ Hl] Hs Hw. rewrite (Hl _ Hs), ascii_lower_clean.
  now apply has_word_clean.
Qed.

Lemma no_space_uint (d : Decimal.uint) : no_space (py (NilEmpty.string_of_uint d)).
Proof.
  induction d; simpl; constructor; (reflexivity || assumption).
Qed.

Lemma no_space_int (z : Z) : no_space (py (NilZero.string_of_int (Z.to_int z))).
Proof.
  destruct (Z.to_int z) as [d | d]; simpl.
  - destruct d; try (apply (no_space_uint (_ d))).
    repeat constructor.
  - constructor; [reflexivity|].
    destruct d; try (apply (no_space_uint (_ d))).
    repeat constructor.
Qed.

Lemma few_words_rejected (rt : runtime) (s : str) (mw : Z) (mar : Q) (ml : Z) :
  (Z.of_nat (length (split s)) < mw)%Z ->
  is_quality_english rt (VScalar (SStr s)) mw mar ml = Ok false.
Proof.
  intros H. rewrite is_quality_english_str.
  destruct (strip s); [reflexivity|].
  unfold quality_checks. rewrite split_clean.
  replace (Z.of_nat (length (split s)) <? mw)%Z with true
    by (symmetry; apply Z.ltb_lt; exact H).
  destruct (_ <? ml)%Z; [reflexivity|]. now destruct (re_search_X5 _).
Qed.

(** X1.  The cleaned text is the whitespace-separated words of the text
    joined by single spaces, [' '.join(text.split())]; each of these words is
    non-empty and free of whitespace. *)
Theorem clean_is_join_of_split :
  forall s : str,
    clean s = join_space (split s) /\ Forall is_word (split s).
Proof.
  intros s. split; [apply clean_join_split | apply split_words].
Qed.

(** X2.  Cleaning a cleaned text changes nothing, and the words counted on
    the cleaned text are the words of the text as given. *)
Theorem clean_is_a_normal_form :
  forall s : str,
    clean (clean s) = clean s /\ split (clean s) = split s.
Proof.
  intros s. split; [apply clean_idempotent | apply split_clean].
Qed.

(** X3.  The verdict depends on the cleaned text only: two strings with
    the same cleaned form get the same verdict, and a string gets the verdict
    of its cleaned form. *)
Theorem verdict_depends_on_cleaned_text :
  forall (rt : runtime) (s s' : str) (mw : Z) (mar : Q) (ml : Z),
    clean s = clean s' ->
    is_quality_english rt (VScalar (SStr s)) mw mar ml
      = is_quality_english rt (VScalar (SStr s')) mw mar ml /\
    is_quality_english rt (VScalar (SStr (clean s))) mw mar ml
      = is_quality_english rt (VScalar (SStr s)) mw mar ml.
Proof.
  assert (Hgen : forall rt s s' mw mar ml, clean s = clean s' ->
            is_quality_english rt (VScalar (SStr s)) mw mar ml
            = is_quality_english rt (VScalar (SStr s')) mw mar ml).
  { intros rt s s' mw mar ml E. rewrite !is_quality_english_str. f_equal.
    assert (Hq : quality_checks rt s mw mar ml = quality_checks rt s' mw mar ml)
      by (unfold quality_checks; now rewrite E).
    destruct (strip s) as [|c t] eqn:Es, (strip s') as [|c' t'] eqn:Es';
      try reflexivity; try exact Hq.
    - apply strip_nil_clean_nil in Es. rewrite E in Es.
      apply strip_nil_clean_nil in Es. congruence.
    - apply strip_nil_clean_nil in Es'. rewrite <- E in Es'.
      apply strip_nil_clean_nil in Es'. congruence. }
  intros rt s s' mw mar ml E. split; [now apply Hgen|].
  apply Hgen. apply clean_idempotent.
Qed.

Lemma verdict_depends_on_cleaned_text_witness :
  clean text_single = clean text_double /\
  is_quality_english (ascii_rt no_files) (VScalar (SStr text_single))
    MIN_WORDS MIN_ALPHA_RATIO MIN_LENGTH
  = is_quality_english (ascii_rt no_files) (VScalar (SStr text_double))
      MIN_WORDS MIN_ALPHA_RATIO MIN_LENGTH.
Proof.
  assert (E : clean text_single = clean text_double) by (vm_compute; reflexivity).
  split; [exact E|].
  exact (proj1 (verdict_depends_on_cleaned_text (ascii_rt no_files)
                  text_single text_double
                  MIN_WORDS MIN_ALPHA_RATIO MIN_LENGTH E)).
Defined.

(** X4.  A string of whitespace only, the empty string included, is
    rejected whatever the thresholds are, and so is every scalar that is not
    a string. *)
Theorem blank_and_non_string_rejected :
  forall (rt : runtime) (mw : Z) (mar : Q) (ml : Z),
    (forall s : str, all_space s ->
       is_quality_english rt (VScalar (SStr s)) mw mar ml = Ok false) /\
    (forall x : scalar, (forall s, x <> SStr s) ->
       is_quality_english rt (VScalar x) mw mar ml = Ok false).
Proof.
  intros rt mw mar ml. split.
  - intros s Hs. rewrite is_quality_english_str.
    now rewrite (all_space_strip s Hs).
  - intros x Hx. destruct x; try reflexivity.
    exfalso. now apply (Hx s).
Qed.

Lemma blank_and_non_string_rejected_witness :
  all_space (py "   ") /\
  is_quality_english (ascii_rt no_files) (VScalar (SStr (py "   ")))
    0 0 0 = Ok false /\
  is_quality_english (ascii_rt no_files) (VScalar (SInt 2018)) 0 0 0 = Ok false.
Proof.
  assert (H : all_space (py "   ")) by (repeat constructor).
  split; [exact H|]. split.
  - exact (proj1 (blank_and_non_string_rejected (ascii_rt no_files) 0%Z 0 0%Z)
             (py "   ") H).
  - apply (proj2 (blank_and_non_string_rejected (ascii_rt no_files) 0%Z 0 0%Z)).
    intros s. discriminate.
Defined.

(** X5.  A string with fewer than [min_words] whitespace-separated words is
    rejected, whatever the other thresholds are; the words are counted on the
    text as given. *)
Theorem too_few_words_rejected :
  forall (rt : runtime) (s : str) (mw : Z) (mar : Q) (ml : Z),
    (Z.of_nat (length (split s)) < mw)%Z ->
    is_quality_english rt (VScalar (SStr s)) mw mar ml = Ok false.
Proof. intros rt s mw mar ml H. now apply few_words_rejected. Qed.

Lemma too_few_words_rejected_witness :
  (Z.of_nat (length (split (py "please  call the-bank-now"))) < MIN_WORDS)%Z /\
  is_quality_english (ascii_rt no_files)
    (VScalar (SStr (py "please  call the-bank-now")))
    MIN_WORDS MIN_ALPHA_RATIO MIN_LENGTH = Ok false.
Proof.
  split; [vm_compute; reflexivity|].
  apply too_few_words_rejected. vm_compute. reflexivity.
Defined.

(** X6.  A word of the list is found in a cleaned text exactly when it is
    one of the text's whitespace-separated words.  On a runtime that agrees
    with Python on ASCII, and for a text that is ASCII once cleaned, a word of
    the list counts exactly when it is one of the words of the lower-cased
    text. *)
Theorem keyword_matches_whole_words :
  (forall w text : str, is_word w ->
      (has_word (clean text) w = true <-> In w (split text)))
  /\
  (forall (rt : runtime) (s w : str),
      ascii_compatible rt -> is_ascii (clean s) = true ->
      In w common_english_words ->
      (has_word (lower rt (clean s)) w = true <-> In w (split (ascii_lower s)))).
Proof.
  split.
  - intros w text Hw. now apply has_word_clean.
  - intros rt s w Hrt Hs Hw. apply has_word_ascii; try assumption.
    pose proof common_english_words_are_words as H.
    rewrite Forall_forall in H. now apply H.
Qed.

Lemma keyword_matches_whole_words_witness :
  is_ascii (clean prize_text) = true /\
  In (py "please") common_english_words /\
  In (py "please") (split (ascii_lower prize_text)) /\
  has_word (lower (ascii_rt no_files) (clean prize_text)) (py "please") = true /\
  ~ In (py "congratulations") (split (ascii_lower prize_text)).
Proof.
  assert (Hs : is_ascii (clean prize_text) = true) by (vm_compute; reflexivity).
  assert (Hw : In (py "please") common_english_words).
  { apply existsb_str_eqb_In. vm_compute. reflexivity. }
  assert (Hin : In (py "please") (split (ascii_lower prize_text))).
  { apply existsb_str_eqb_In. vm_compute. reflexivity. }
  split; [exact Hs|]. split; [exact Hw|]. split; [exact Hin|]. split.
  - exact (proj2 (proj2 keyword_matches_whole_words (ascii_rt no_files)
                    prize_text (py "please")
                    (ascii_rt_compatible no_files) Hs Hw) Hin).
  - intros H. apply existsb_str_eqb_In in H. vm_compute in H. discriminate.
Defined.

(** X7.  An accepted string meets every threshold: its cleaned form has at
    least [min_length] characters (so the string has), it has at least
    [min_words] words, it holds no run of five X, the quotient of its
    alphabetic characters by its length, the double that the code computes,
    is not below [min_alpha_ratio], and at least one word of the list is
    found in it. *)
Theorem accepted_text_meets_thresholds :
  forall (rt : runtime) (s : str) (mw : Z) (mar : Q) (ml : Z),
    is_quality_english rt (VScalar (SStr s)) mw mar ml = Ok true ->
    (ml <= Z.of_nat (length (clean s)))%Z /\
    length (clean s) <= length s /\
    (mw <= Z.of_nat (length (split s)))%Z /\
    (forall pre n post, s = pre ++ X_run n ++ post -> n < 5) /\
    float_ltb_Q
      (float_truediv (alpha_chars rt (clean s)) (length (clean s))) mar
      = false /\
    1 <= english_word_count rt (clean s).
Proof.
  intros rt s mw mar ml H.
  apply is_quality_english_true in H as [Hblank H].
  apply quality_checks_true in H as (H1 & H2 & H3 & H4 & H5).
  rewrite split_clean in H3.
  split; [exact H1|]. split; [apply clean_length|]. split; [exact H3|].
  split; [now apply X_run_survives|]. split.
  - assert (Hpos : (0 <? length (clean s)) = true).
    { apply Nat.ltb_lt. destruct (clean s) eqn:E; [|simpl; lia].
      apply strip_nil_clean_nil in E. contradiction. }
    rewrite Hpos in H4. cbn [andb] in H4. exact H4.
  - destruct (50 <? length (clean s)); lia.
Qed.

Lemma accepted_text_meets_thresholds_witness :
  is_quality_english (ascii_rt no_files) (VScalar (SStr prize_text))
    MIN_WORDS MIN_ALPHA_RATIO MIN_LENGTH = Ok true /\
  (MIN_LENGTH <= Z.of_nat (length (clean prize_text)))%Z /\
  (MIN_WORDS <= Z.of_nat (length (split prize_text)))%Z.
Proof.
  assert (H : is_quality_english (ascii_rt no_files) (VScalar (SStr prize_text))
                MIN_WORDS MIN_ALPHA_RATIO MIN_LENGTH = Ok true)
    by (vm_compute; reflexivity).
  split; [exact H|].
  destruct (accepted_text_meets_thresholds _ _ _ _ _ H) as (H1 & _ & H3 & _).
  split; assumption.
Defined.

Lemma counted_word (rt : runtime) (c : str) :
  1 <= english_word_count rt c ->
  exists w, In w common_english_words /\ has_word (lower rt c) w = true.
Proof.
  unfold english_word_count. intros H.
  destruct (length_pos_In _ H) as (w & Hin).
  apply filter_In in Hin. now exists w.
Qed.

Lemma accepted_counts_a_word (rt : runtime) (s : str) (mw : Z) (mar : Q) (ml : Z) :
  is_quality_english rt (VScalar (SStr s)) mw mar ml = Ok true ->
  1 <= english_word_count rt (clean s).
Proof.
  intros H.
  apply is_quality_english_true in H as [_ H].
  apply quality_checks_true in H as (_ & _ & _ & _ & H5).
  destruct (50 <? length (clean s)); lia.
Qed.

(** X8.  On a runtime that agrees with Python on ASCII, an accepted text
    that is ASCII once cleaned has a word of the list among the
    whitespace-separated words of its lower-cased form. *)
Theorem accepted_text_has_list_word :
  forall (rt : runtime) (s : str) (mw : Z) (mar : Q) (ml : Z),
    ascii_compatible rt -> is_ascii (clean s) = true ->
    is_quality_english rt (VScalar (SStr s)) mw mar ml = Ok true ->
    exists w, In w common_english_words /\ In w (split (ascii_lower s)).
Proof.
  intros rt s mw mar ml Hrt Hs H.
  destruct (counted_word rt (clean s) (accepted_counts_a_word rt s mw mar ml H))
    as (w & Hw & Hhas).
  exists w. split; [exact Hw|].
  assert (Hword : is_word w).
  { pose proof common_english_words_are_words as Hall.
    rewrite Forall_forall in Hall. apply Hall. exact Hw. }
  exact (proj1 (has_word_ascii rt s w Hrt Hs Hword) Hhas).
Qed.

Lemma accepted_text_has_list_word_witness :
  is_ascii (clean text_upper) = true /\
  exists w, In w common_english_words /\ In w (split (ascii_lower text_upper)).
Proof.
  assert (Hs : is_ascii (clean text_upper) = true) by (vm_compute; reflexivity).
  split; [exact Hs|].
  apply (accepted_text_has_list_word (ascii_rt no_files) text_upper
           MIN_WORDS MIN_ALPHA_RATIO MIN_LENGTH
           (ascii_rt_compatible no_files) Hs).
  vm_compute. reflexivity.
Defined.

(** X9.  Stricter thresholds accept fewer values: what is accepted under
    larger [min_words], [min_alpha_ratio] and [min_length] is accepted under
    smaller ones. *)
Theorem stricter_thresholds_accept_less :
  forall (rt : runtime) (text : value) (mw mw' : Z) (mar mar' : Q) (ml ml' : Z),
    (mw <= mw')%Z -> (mar <= mar')%Q -> (ml <= ml')%Z ->
    is_quality_english rt text mw' mar' ml' = Ok true ->
    is_quality_english rt text mw mar ml = Ok true.
Proof.
  intros rt text mw mw' mar mar' ml ml' Hw Hr Hl.
  destruct text as [x | l]; [|intros H; exact H].
  destruct x; try (intros H; exact H).
  intros H. apply is_quality_english_true in H as [Hblank H].
  apply quality_checks_true in H as (H1 & H2 & H3 & H4 & H5).
  rewrite is_quality_english_str.
  destruct (strip s); [congruence|]. f_equal.
  unfold quality_checks.
  replace (Z.of_nat (length (clean s)) <? ml)%Z with false
    by (symmetry; apply Z.ltb_ge; lia).
  rewrite H2.
  replace (Z.of_nat (length (split (clean s))) <? mw)%Z with false
    by (symmetry; apply Z.ltb_ge; lia).
  assert (H4' : (0 <? length (clean s)) &&
                ratio_below (alpha_chars rt (clean s)) (length (clean s)) mar
                = false).
  { apply andb_false_iff. apply andb_false_iff in H4 as [H4 | H4];
      [now left | right].
    exact (ratio_below_mono _ _ mar mar' Hr H4). }
  rewrite H4'.
  destruct (50 <? length (clean s)); apply Nat.leb_le; exact H5.
Qed.

Lemma stricter_thresholds_accept_less_witness :
  is_quality_english (ascii_rt no_files) (VScalar (SStr prize_text))
    12 (4 # 5) 78 = Ok true /\
  is_quality_english (ascii_rt no_files) (VScalar (SStr prize_text))
    MIN_WORDS MIN_ALPHA_RATIO MIN_LENGTH = Ok true.
Proof.
  assert (H : is_quality_english (ascii_rt no_files) (VScalar (SStr prize_text))
                12 (4 # 5) 78 = Ok true) by (vm_compute; reflexivity).
  split; [exact H|].
  apply (stricter_thresholds_accept_less (ascii_rt no_files)
           (VScalar (SStr prize_text)) MIN_WORDS 12 MIN_ALPHA_RATIO (4 # 5)
           MIN_LENGTH 78).
  - vm_compute. discriminate.
  - vm_compute. discriminate.
  - vm_compute. discriminate.
  - exact H.
Defined.

(** ** More on drop_duplicates *)

Lemma unseen_In (seen : list str) (x : str) :
  unseen seen x = true <-> ~ In x seen.
Proof.
  unfold unseen. rewrite negb_true_iff. split.
  - intros H Hin. apply existsb_str_eqb_In in Hin. congruence.
  - intros H. apply not_true_is_false. intros E.
    apply existsb_str_eqb_In in E. contradiction.
Qed.

Lemma unseen_ext (s1 s2 : list str) (x : str) :
  (In x s1 <-> In x s2) -> unseen s1 x = unseen s2 x.
Proof.
  intros H. destruct (unseen s1 x) eqn:E1, (unseen s2 x) eqn:E2;
    try reflexivity.
  - apply unseen_In in E1. apply not_true_iff_false in E2.
    rewrite unseen_In in E2. tauto.
  - apply unseen_In in E2. apply not_true_iff_false in E1.
    rewrite unseen_In in E1. tauto.
Qed.

Lemma filter_filter (p q : str -> bool) (l : list str) :
  filter p (filter q l) = filter (fun y => q y && p y) l.
Proof.
  induction l as [|x l IH]; [reflexivity|]. simpl.
  destruct (q x); simpl; [destruct (p x)|]; now rewrite IH.
Qed.

Lemma drop_duplicates_from_filter (seen l : list str) :
  drop_duplicates_from seen l = filter (unseen seen) (drop_duplicates l).
Proof.
  unfold drop_duplicates. revert seen.
  induction l as [|x l IH]; intros seen; [reflexivity|].
  cbn [drop_duplicates_from existsb filter].
  rewrite (IH [x]), filter_filter.
  destruct (existsb (str_eqb x) seen) eqn:E.
  - replace (unseen seen x) with false by (unfold unseen; now rewrite E).
    rewrite IH. apply filter_ext_in. intros y _.
    destruct (unseen seen y) eqn:Ey; [|now rewrite andb_false_r].
    rewrite andb_true_r. symmetry. apply unseen_In. intros [-> | []].
    apply unseen_In in Ey. apply existsb_str_eqb_In in E. contradiction.
  - replace (unseen seen x) with true by (unfold unseen; now rewrite E).
    f_equal. rewrite IH. apply filter_ext. intros y.
    unfold unseen. cbn [existsb]. rewrite orb_false_r.
    rewrite negb_orb. reflexivity.
Qed.

Lemma drop_duplicates_from_app (seen l1 l2 : list str) :
  drop_duplicates_from seen (l1 ++ l2)
  = drop_duplicates_from seen l1
    ++ filter (unseen (l1 ++ seen)) (drop_duplicates l2).
Proof.
  revert seen. induction l1 as [|x l1 IH]; intros seen.
  - apply drop_duplicates_from_filter.
  - cbn [app drop_duplicates_from].
    destruct (existsb (str_eqb x) seen) eqn:E.
    + rewrite IH. f_equal. apply filter_ext. intros y. apply unseen_ext.
      apply existsb_str_eqb_In in E. simpl. rewrite !in_app_iff.
      split; [tauto|]. intros [-> | H]; tauto.
    + rewrite IH. cbn [app]. do 2 f_equal. apply filter_ext. intros y.
      apply unseen_ext. simpl. rewrite !in_app_iff. simpl. tauto.
Qed.

Lemma drop_duplicates_app (l1 l2 : list str) :
  drop_duplicates (l1 ++ l2)
  = drop_duplicates l1
    ++ filter (unseen (drop_duplicates l1)) (drop_duplicates l2).
Proof.
  unfold drop_duplicates at 1. rewrite drop_duplicates_from_app.
  fold (drop_duplicates l1). f_equal. apply filter_ext. intros y.
  apply unseen_ext. rewrite app_nil_r. unfold drop_duplicates.
  rewrite drop_duplicates_from_In. simpl. tauto.
Qed.

Lemma drop_duplicates_NoDup (l : list str) :
  NoDup l -> drop_duplicates l = l.
Proof.
  unfold drop_duplicates.
  assert (H : forall seen, NoDup l -> (forall x, In x l -> ~ In x seen) ->
                drop_duplicates_from seen l = l).
  { induction l as [|x l IH]; intros seen Hnd Hs; [reflexivity|].
    inversion Hnd as [|? ? Hx Hl]; subst. simpl.
    destruct (existsb (str_eqb x) seen) eqn:E.
    - apply existsb_str_eqb_In in E. exfalso. apply (Hs x); [now left | exact E].
    - f_equal. apply IH; [exact Hl|].
      intros y Hy [-> | Hin]; [contradiction|].
      apply (Hs y); [now right | exact Hin]. }
  intros Hnd. apply H; [exact Hnd | intros x _ []].
Qed.

(** ** More on the reducer *)

Lemma extract_from_frame_collected (rt : runtime) (df : DataFrame)
    (output_file : str) (text_columns : option (list str)) :
  written (extract_from_frame rt df output_file text_columns)
  = Some (output_file,
          drop_duplicates
            (flat_map (fun row => record_list (longest_text
                (passing_texts rt (columns df) row
                   (select_columns df text_columns))))
              (rows df))).
Proof.
  unfold extract_from_frame.
  now rewrite (scan_rows_ok rt _ _ _ (select_columns_in_columns df text_columns)).
Qed.

Lemma written_text_passes (rt : runtime) (df : DataFrame) (output_file : str)
    (text_columns : option (list str)) (result_df : list str) (t : str) :
  written (extract_from_frame rt df output_file text_columns)
    = Some (output_file, result_df) ->
  In t result_df -> passes rt t.
Proof.
  intros Hw Hin.
  destruct (extract_from_frame_written rt df output_file text_columns)
    as (all_texts & Hscan & Hw' & _).
  rewrite Hw' in Hw. injection Hw as <-.
  unfold drop_duplicates in Hin. apply drop_duplicates_from_In in Hin as [Hin _].
  destruct (collected_text_origin rt df text_columns all_texts t Hscan Hin)
    as (_ & _ & _ & _ & _ & Hp).
  exact Hp.
Qed.

Lemma written_NoDup (rt : runtime) (df : DataFrame) (output_file : str)
    (text_columns : option (list str)) (result_df : list str) :
  written (extract_from_frame rt df output_file text_columns)
    = Some (output_file, result_df) ->
  NoDup result_df.
Proof.
  rewrite extract_from_frame_collected. intros H. injection H as <-.
  apply drop_duplicates_from_NoDup.
Qed.

Lemma passes_not_sentinel (rt : runtime) (t : str) :
  passes rt t -> is_sentinel t = false.
Proof.
  intros Hp. destruct (is_sentinel t) eqn:E; [|reflexivity].
  unfold passes in Hp. rewrite (sentinel_rejected rt t E) in Hp. discriminate.
Qed.

Lemma scan_output_frame (rt : runtime) (texts : list str) :
  Forall (passes rt) texts ->
  flat_map (fun row => record_list (longest_text
              (passing_texts rt (columns (output_frame texts)) row
                 (select_columns (output_frame texts) None))))
           (rows (output_frame texts))
  = texts.
Proof.
  cbn [output_frame columns rows select_columns].
  induction 1 as [|t texts Ht Hrest IH]; [reflexivity|].
  cbn [map flat_map]. rewrite IH.
  assert (E : passing_texts rt [py "english_text"] [SStr t] [py "english_text"]
              = [t]).
  { unfold passing_texts, cell_texts. cbn [map].
    replace (cell_at [py "english_text"] [SStr t] (py "english_text"))
      with (SStr t) by reflexivity.
    cbn [cell_text_of checknull negb py_str filter].
    now rewrite (proj2 (passesb_passes rt t) Ht). }
  rewrite E. reflexivity.
Qed.

(** X10.  A cell text that the reducer skips as a sentinel ("", "nan",
    "None", "0", "NaN", with any whitespace around) would be rejected by the
    classifier anyway: the skip drops no text that could be collected. *)
Theorem sentinel_skip_drops_nothing :
  forall (rt : runtime) (cell_text : str),
    is_sentinel cell_text = true ->
    is_quality_english rt (VScalar (SStr cell_text))
      MIN_WORDS MIN_ALPHA_RATIO MIN_LENGTH = Ok false.
Proof. intros rt cell_text H. now apply sentinel_rejected. Qed.

Lemma sentinel_skip_drops_nothing_witness :
  is_sentinel (py "  NaN ") = true /\
  is_quality_english (ascii_rt no_files) (VScalar (SStr (py "  NaN ")))
    MIN_WORDS MIN_ALPHA_RATIO MIN_LENGTH = Ok false.
Proof.
  split; [vm_compute; reflexivity|].
  apply sentinel_skip_drops_nothing. vm_compute. reflexivity.
Defined.

(** X11.  The text of an integer cell, of a boolean cell and of a missing
    cell is never accepted, so such cells are never collected. *)
Theorem number_and_missing_cells_rejected :
  forall (rt : runtime) (x : scalar),
    match x with
    | SStr _ | SFloat _ => True
    | _ => is_quality_english rt (VScalar (SStr (cell_text_of x)))
             MIN_WORDS MIN_ALPHA_RATIO MIN_LENGTH = Ok false
    end.
Proof.
  intros rt x. destruct x as [| |z|b| |]; try exact I.
  - reflexivity.
  - reflexivity.
  - apply few_words_rejected. cbn [cell_text_of checknull negb py_str].
    pose proof (split_no_space _ (no_space_int z)). unfold MIN_WORDS. lia.
  - apply few_words_rejected. destruct b; vm_compute; reflexivity.
Qed.

(** X12.  Running the reducer on its own output (as a one-column table
    [english_text]) writes that output again: every written text passes the
    classifier, is no sentinel, and occurs once. *)
Theorem reducer_fixes_its_output :
  forall (rt : runtime) (df : DataFrame) (output_file output_file' : str)
         (text_columns : option (list str)) (result_df : list str),
    written (extract_from_frame rt df output_file text_columns)
      = Some (output_file, result_df) ->
    written (extract_from_frame rt (output_frame result_df) output_file' None)
      = Some (output_file', result_df) /\
    (result_df <> [] ->
     returned (extract_from_frame rt (output_frame result_df) output_file' None)
       = Ok result_df).
Proof.
  intros rt df output_file output_file' text_columns result_df Hw.
  assert (Hpass : Forall (passes rt) result_df).
  { apply Forall_forall. intros t Ht.
    exact (written_text_passes rt df output_file text_columns result_df t Hw Ht). }
  pose proof (written_NoDup rt df output_file text_columns result_df Hw) as Hnd.
  destruct (extract_from_frame_written rt (output_frame result_df)
              output_file' None) as (all_texts & Hscan & Hw' & Hr').
  rewrite (scan_rows_ok rt _ _ _
             (select_columns_in_columns (output_frame result_df) None)) in Hscan.
  rewrite (scan_output_frame rt result_df Hpass) in Hscan.
  apply (proj1 (Ok_inj _ _)) in Hscan. subst all_texts.
  rewrite (drop_duplicates_NoDup result_df Hnd) in Hw', Hr'.
  split; [exact Hw'|].
  intros Hne. rewrite Hr'. cbn [output_frame rows].
  destruct result_df; [congruence | reflexivity].
Qed.

Lemma reducer_fixes_its_output_witness :
  written (extract_from_frame (ascii_rt no_files) spaces_table (py "out.csv") None)
    = Some (py "out.csv", [text_single; text_double]) /\
  written (extract_from_frame (ascii_rt no_files)
             (output_frame [text_single; text_double]) (py "again.csv") None)
    = Some (py "again.csv", [text_single; text_double]).
Proof.
  assert (Hw : written (extract_from_frame (ascii_rt no_files) spaces_table
                          (py "out.csv") None)
               = Some (py "out.csv", [text_single; text_double]))
    by (vm_compute; reflexivity).
  split; [exact Hw|].
  exact (proj1 (reducer_fixes_its_output (ascii_rt no_files) spaces_table
                  (py "out.csv") (py "again.csv") None
                  [text_single; text_double] Hw)).
Defined.

(** X14.  Rows added at the end of a table add to the end of the output:
    the output of the longer table is the output of the first rows followed
    by the texts of the added rows' output that were not written yet. *)
Theorem appended_rows_extend_output :
  forall (rt : runtime) (df : DataFrame) (more : list (list scalar))
         (output_file : str) (text_columns : option (list str))
         (first added : list str),
    written (extract_from_frame rt df output_file text_columns)
      = Some (output_file, first) ->
    written (extract_from_frame rt {| columns := columns df; rows := more |}
               output_file text_columns)
      = Some (output_file, added) ->
    written (extract_from_frame rt (append_rows df more) output_file text_columns)
      = Some (output_file, first ++ filter (unseen first) added).
Proof.
  intros rt df more output_file text_columns first added.
  rewrite !extract_from_frame_collected.
  cbn [append_rows columns rows select_columns].
  intros H1 H2. injection H1 as <-. injection H2 as <-.
  rewrite flat_map_app, drop_duplicates_app. reflexivity.
Qed.

Lemma appended_rows_extend_output_witness :
  written (extract_from_frame (ascii_rt no_files) tie_table (py "out.csv") None)
    = Some (py "out.csv", [text_single]) /\
  written (extract_from_frame (ascii_rt no_files)
             (append_rows tie_table (rows spaces_table)) (py "out.csv") None)
    = Some (py "out.csv",
            [text_single]
              ++ filter (unseen [text_single]) [text_single; text_double]).
Proof.
  assert (H1 : written (extract_from_frame (ascii_rt no_files) tie_table
                          (py "out.csv") None)
               = Some (py "out.csv", [text_single])) by (vm_compute; reflexivity).
  split; [exact H1|].
  apply (appended_rows_extend_output (ascii_rt no_files) tie_table
           (rows spaces_table) (py "out.csv") None [text_single]
           [text_single; text_double] H1).
  vm_compute. reflexivity.
Defined.

(** X15.  Every written text has at least 15 characters and at least four
    whitespace-separated words, holds no run of five X, has a word of the list
    found in its cleaned form, and is none of the sentinel texts. *)
Theorem written_texts_meet_defaults :
  forall (rt : runtime) (df : DataFrame) (output_file : str)
         (text_columns : option (list str)) (result_df : list str) (t : str),
    written (extract_from_frame rt df output_file text_columns)
      = Some (output_file, result_df) ->
    In t result_df ->
    15 <= length t /\
    4 <= length (split t) /\
    (forall pre n post, t = pre ++ X_run n ++ post -> n < 5) /\
    1 <= english_word_count rt (clean t) /\
    is_sentinel t = false.
Proof.
  intros rt df output_file text_columns result_df t Hw Hin.
  pose proof (written_text_passes rt df output_file text_columns result_df t
                Hw Hin) as Hp.
  pose proof (passes_not_sentinel rt t Hp) as Hs.
  unfold passes in Hp. apply is_quality_english_true in Hp as [_ Hq].
  apply quality_checks_true in Hq as (H1 & H2 & H3 & _ & H5).
  rewrite split_clean in H3. pose proof (clean_length t) as Hc.
  unfold MIN_LENGTH in H1. unfold MIN_WORDS in H3.
  split; [lia|]. split; [lia|]. split; [now apply X_run_survives|].
  split; [|exact Hs].
  destruct (50 <? length (clean t)); lia.
Qed.

Lemma written_texts_meet_defaults_witness :
  written (extract_from_frame (ascii_rt no_files) spaces_table (py "out.csv") None)
    = Some (py "out.csv", [text_single; text_double]) /\
  15 <= length text_double /\ 4 <= length (split text_double).
Proof.
  assert (Hw : written (extract_from_frame (ascii_rt no_files) spaces_table
                          (py "out.csv") None)
               = Some (py "out.csv", [text_single; text_double]))
    by (vm_compute; reflexivity).
  split; [exact Hw|].
  destruct (written_texts_meet_defaults (ascii_rt no_files) spaces_table
              (py "out.csv") None [text_single; text_double] text_double Hw)
    as (H1 & H2 & _).
  - right; left; reflexivity.
  - split; assumption.
Defined.

(** X16.  An empty list of columns is not replaced by all columns: no
    column is scanned and the written output is empty. *)
Theorem empty_column_list_scans_nothing :
  forall (rt : runtime) (df : DataFrame) (output_file : str),
    select_columns df (Some []) = [] /\
    written (extract_from_frame rt df output_file (Some []))
      = Some (output_file, []).
Proof.
  intros rt df output_file. split; [reflexivity|].
  rewrite extract_from_frame_collected.
  cbn [select_columns forallb negb].
  induction (rows df) as [|row rest IH]; [reflexivity|].
  cbn [flat_map]. exact IH.
Qed.

(** X17.  The division of the alphabetic-ratio test is never by zero: a
    string that is not blank has a non-empty cleaned form. *)
Theorem cleaned_text_of_non_blank_is_non_empty :
  forall s : str, strip s <> [] -> 0 < length (clean s).
Proof.
  intros s H. destruct (clean s) as [|c t] eqn:E; [|simpl; lia].
  apply strip_nil_clean_nil in E. contradiction.
Qed.

Lemma cleaned_text_of_non_blank_is_non_empty_witness :
  strip (py "  a  ") <> [] /\ 0 < length (clean (py "  a  ")).
Proof.
  assert (H : strip (py "  a  ") <> []) by (vm_compute; discriminate).
  split; [exact H|].
  exact (cleaned_text_of_non_blank_is_non_empty (py "  a  ") H).
Defined.

(** ** The keyword count *)

Lemma startswith_spec (p s : str) :
  startswith p s = true <-> exists post, s = p ++ post.
Proof.
  revert s. induction p as [|a p IH]; intros s; cbn [startswith app].
  - split; [intros _; now exists s | reflexivity].
  - destruct s as [|b s].
    + split; [discriminate | intros (post & H); discriminate].
    + rewrite andb_true_iff, IH. unfold char_eqb. rewrite N.eqb_eq. split.
      * intros [-> (post & ->)]. now exists post.
      * intros (post & H). injection H as -> ->. split; [reflexivity|].
        now exists post.
Qed.

Lemma str_in_spec (p s : str) :
  str_in p s = true <-> exists pre post, s = pre ++ p ++ post.
Proof.
  induction s as [|c t IH].
  - cbn [str_in]. rewrite orb_false_r, startswith_spec. split.
    + intros (post & H). now exists [], post.
    + intros (pre & post & H). destruct pre as [|a pre]; [|discriminate].
      now exists post.
  - cbn [str_in]. rewrite orb_true_iff, startswith_spec, IH. split.
    + intros [(post & H) | (pre & post & H)].
      * now exists [], post.
      * exists (c :: pre), post. cbn [app]. now rewrite H.
    + intros (pre & post & H). destruct pre as [|a pre].
      * left. now exists post.
      * right. cbn [app] in H. injection H as _ H. now exists pre, post.
Qed.

Lemma has_word_space_bounded (text w : str) :
  has_word text w = true <-> space_bounded w text.
Proof. unfold has_word, space_bounded. apply str_in_spec. Qed.

Lemma common_english_words_NoDup : NoDup common_english_words.
Proof.
  assert (E : drop_duplicates common_english_words = common_english_words)
    by (vm_compute; reflexivity).
  rewrite <- E. apply drop_duplicates_from_NoDup.
Qed.

Lemma matched_words_counted (rt : runtime) (cleaned_text : str) :
  matched_words rt cleaned_text
    (filter (has_word (lower rt cleaned_text)) common_english_words).
Proof.
  split.
  - apply NoDup_filter, common_english_words_NoDup.
  - intros w. rewrite filter_In, has_word_space_bounded. tauto.
Qed.

Lemma matched_words_length (rt : runtime) (cleaned_text : str)
    (matched : list str) :
  matched_words rt cleaned_text matched ->
  length matched = english_word_count rt cleaned_text.
Proof.
  intros [Hnd Hin].
  destruct (matched_words_counted rt cleaned_text) as [Hnd' Hin'].
  unfold english_word_count. apply Nat.le_antisymm.
  - apply NoDup_incl_length; [exact Hnd|].
    intros w Hw. exact (proj2 (Hin' w) (proj1 (Hin w) Hw)).
  - apply NoDup_incl_length; [exact Hnd'|].
    intros w Hw. exact (proj2 (Hin w) (proj1 (Hin' w) Hw)).
Qed.

Lemma space_bounded_ascii (rt : runtime) (s w : str) :
  ascii_compatible rt -> is_ascii (clean s) = true ->
  In w common_english_words ->
  (space_bounded w (lower rt (clean s)) <-> In w (split (ascii_lower s))).
Proof.
  intros Hrt Hs Hw. rewrite <- has_word_space_bounded.
  apply has_word_ascii; try assumption.
  pose proof common_english_words_are_words as Hall.
  rewrite Forall_forall in Hall. apply Hall. exact Hw.
Qed.

Lemma threshold_decides (rt : runtime) (s : str) (mw : Z) (mar : Q) (ml : Z) :
  strip s <> [] ->
  (ml <= Z.of_nat (length (clean s)))%Z ->
  re_search_X5 (clean s) = false ->
  (mw <= Z.of_nat (length (split (clean s))))%Z ->
  (0 <? length (clean s)) &&
    ratio_below (alpha_chars rt (clean s)) (length (clean s)) mar = false ->
  (is_quality_english rt (VScalar (SStr s)) mw mar ml = Ok true <->
   (if 50 <? length (clean s) then 2 else 1)
     <= english_word_count rt (clean s)).
Proof.
  intros Hblank Hlen HX Hwords Hratio.
  rewrite is_quality_english_str.
  destruct (strip s) as [|c t] eqn:Es; [congruence|].
  unfold quality_checks.
  replace (Z.of_nat (length (clean s)) <? ml)%Z with false
    by (symmetry; apply Z.ltb_ge; lia).
  rewrite HX.
  replace (Z.of_nat (length (split (clean s))) <? mw)%Z with false
    by (symmetry; apply Z.ltb_ge; lia).
  rewrite Hratio.
  destruct (50 <? length (clean s));
    rewrite Ok_inj; apply Nat.leb_le.
Qed.

(** C1.  A text that is a non-blank string and gets through the length,
    placeholder, word-count and alphabetic-ratio tests passes exactly when
    the number of words of the fixed list that occur bounded by spaces in its
    lower-cased cleaned form (padded with a space at each end) reaches the
    threshold: 2 when the cleaned text is longer than 50 characters, 1
    otherwise.  On a runtime that agrees with Python on ASCII, and for a text
    that is ASCII once cleaned, a word of the list occurs in this way exactly
    when it is one of the whitespace-separated words of the lower-cased text,
    whatever the case of the text's letters.  The prize sentence of the
    specification passes on every such runtime. *)
Theorem keyword_threshold_decides :
  (forall (rt : runtime) (s : str) (mw : Z) (mar : Q) (ml : Z),
      strip s <> [] ->
      (ml <= Z.of_nat (length (clean s)))%Z ->
      re_search_X5 (clean s) = false ->
      (mw <= Z.of_nat (length (split (clean s))))%Z ->
      (0 <? length (clean s)) &&
        ratio_below (alpha_chars rt (clean s)) (length (clean s)) mar = false ->
      (exists matched, matched_words rt (clean s) matched) /\
      (forall matched, matched_words rt (clean s) matched ->
         (is_quality_english rt (VScalar (SStr s)) mw mar ml = Ok true <->
          (if 50 <? length (clean s) then 2 else 1) <= length matched)))
  /\
  (forall (rt : runtime) (s w : str),
      ascii_compatible rt -> is_ascii (clean s) = true ->
      In w common_english_words ->
      (space_bounded w (lower rt (clean s)) <-> In w (split (ascii_lower s))))
  /\
  (forall rt : runtime, ascii_compatible rt ->
      is_quality_english rt (VScalar (SStr prize_text))
        MIN_WORDS MIN_ALPHA_RATIO MIN_LENGTH = Ok true).
Proof.
  split; [|split].
  - intros rt s mw mar ml Hblank Hlen HX Hwords Hratio. split.
    + eexists. apply matched_words_counted.
    + intros matched Hm. rewrite (matched_words_length rt (clean s) matched Hm).
      now apply threshold_decides.
  - intros rt s w Hrt Hs Hw. now apply space_bounded_ascii.
  - intros rt Hrt.
    rewrite (is_quality_english_ascii rt no_files) by
      (assumption || (vm_compute; reflexivity)).
    vm_compute. reflexivity.
Qed.

Lemma keyword_threshold_decides_witness :
  strip prize_text <> [] /\
  (MIN_LENGTH <= Z.of_nat (length (clean prize_text)))%Z /\
  50 < length (clean prize_text) /\
  exists matched,
    matched_words (ascii_rt no_files) (clean prize_text) matched /\
    2 <= length matched /\
    is_quality_english (ascii_rt no_files) (VScalar (SStr prize_text))
      MIN_WORDS MIN_ALPHA_RATIO MIN_LENGTH = Ok true.
Proof.
  assert (H1 : strip prize_text <> []) by (vm_compute; discriminate).
  assert (H2 : (MIN_LENGTH <= Z.of_nat (length (clean prize_text)))%Z)
    by (vm_compute; discriminate).
  assert (H3 : re_search_X5 (clean prize_text) = false)
    by (vm_compute; reflexivity).
  assert (H4 : (MIN_WORDS <= Z.of_nat (length (split (clean prize_text))))%Z)
    by (vm_compute; discriminate).
  assert (H5 : (0 <? length (clean prize_text)) &&
               ratio_below (alpha_chars (ascii_rt no_files) (clean prize_text))
                 (length (clean prize_text)) MIN_ALPHA_RATIO = false)
    by (vm_compute; reflexivity).
  assert (H6 : (50 <? length (clean prize_text)) = true)
    by (vm_compute; reflexivity).
  assert (H7 : is_quality_english (ascii_rt no_files) (VScalar (SStr prize_text))
                 MIN_WORDS MIN_ALPHA_RATIO MIN_LENGTH = Ok true)
    by (vm_compute; reflexivity).
  split; [exact H1|]. split; [exact H2|].
  split; [apply Nat.ltb_lt; exact H6|].
  destruct (proj1 keyword_threshold_decides (ascii_rt no_files) prize_text
              MIN_WORDS MIN_ALPHA_RATIO MIN_LENGTH H1 H2 H3 H4 H5)
    as [(matched & Hm) Hall].
  exists matched. split; [exact Hm|]. split; [|exact H7].
  pose proof (proj1 (Hall matched Hm) H7) as Hle.
  rewrite H6 in Hle. exact Hle.
Defined.
